(** * The Shopify catalog indexer and the input normaliser

    A shallow embedding of [src/scraper/shopify_catalog.py]
    ([ShopifyCatalogIndexer]) and of [_normalise_rows] from [src/app.py],
    with the properties the specification states about them.

    Modelling choices.
    - A Python [str] is a [string]: a sequence of code points below 256
      (Latin-1).  On that range [str.lower], [str.isspace] and so
      [str.strip] are the character-wise functions of module [Py].  That
      [lower] keeps the length of a string is particular to the range
      (U+0130 lower-cases to two code points): lengths serve in proofs
      only, and no property below is about the length of a key.
    - A decoded JSON document is a [json] value; JSON numbers are the
      integers (the feed serialises prices as strings).
    - A Python [dict] used as a map is a [gmap]; a JSON object keeps its
      insertion order and is an association list.
    - [fetch_catalog] mutates the indexer and may stop on an exception:
      the indexer is threaded explicitly and a page's processing returns
      the state reached together with [Ok] or [Raise]. *)

From Stdlib Require Import Ascii NArith ZArith Lia.
From stdpp Require Import base option list strings gmap pretty sorting.

Local Open Scope char_scope.
Local Open Scope stdpp_scope.

(** ** Python built-ins on strings *)

Module Py.

(** [str.isspace] of one character: TAB..CR, FS..US, SPACE, NEL, NBSP. *)
Definition isspace (c : ascii) : bool :=
  let n := N_of_ascii c in
  ((9 <=? n) && (n <=? 13) || (28 <=? n) && (n <=? 32)
   || (n =? 133) || (n =? 160))%N.

(** [str.lower] of one character: A..Z and the Latin-1 capitals
    (all of U+00C0..U+00DE but the multiplication sign). *)
Definition lower_char (c : ascii) : ascii :=
  let n := N_of_ascii c in
  if ((65 <=? n) && (n <=? 90)
      || (192 <=? n) && (n <=? 222) && negb (n =? 215))%N
  then ascii_of_N (n + 32) else c.

Fixpoint lower (s : string) : string :=
  match s with
  | "" => ""
  | String c s' => String (lower_char c) (lower s')
  end.

(** [s.lstrip(chars)]; [p] decides membership in [chars]. *)
Fixpoint lstrip (p : ascii → bool) (s : string) : string :=
  match s with
  | "" => ""
  | String c s' => if p c then lstrip p s' else s
  end.

(** [s.rstrip(chars)]. *)
Fixpoint rstrip (p : ascii → bool) (s : string) : string :=
  match s with
  | "" => ""
  | String c s' =>
      match rstrip p s' with
      | "" => if p c then "" else String c ""
      | r => String c r
      end
  end.

(** [s.strip()]: white space removed at both ends. *)
Definition strip (s : string) : string := rstrip isspace (lstrip isspace s).

(** The character set of [lstrip("0")] and of [rstrip("/")]. *)
Definition is_char (a c : ascii) : bool := Ascii.eqb a c.

(** Truth value of a [str]: false exactly for the empty string. *)
Definition str_truthy (s : string) : bool :=
  match s with "" => false | _ => true end.

End Py.

(** ** SKU normalisation, as written twice in the indexer *)

(** [_index_product], lines 79-82: the catalog key of [str(sku)]. *)
Definition index_sku_key (sku : string) : string :=
  let sku_str := Py.lower (Py.strip sku) in
  let sku_key := Py.lstrip (Py.is_char "0") sku_str in
  if negb (Py.str_truthy sku_key) then sku_str else sku_key.

(** [lookup_sku], lines 114-117: the key a query is looked up under. *)
Definition lookup_sku_key (sku : string) : string :=
  let sku_str := Py.lower (Py.strip sku) in
  let sku_key := Py.lstrip (Py.is_char "0") sku_str in
  if negb (Py.str_truthy sku_key) then sku_str else sku_key.

(** [stripLeadingZeros] of the specification. *)
Definition stripLeadingZeros (s : string) : string :=
  Py.lstrip (Py.is_char "0") s.

(** ** Shape predicates on strings used by the statements *)

Fixpoint all_chars (p : ascii → bool) (s : string) : bool :=
  match s with
  | "" => true
  | String c s' => p c && all_chars p s'
  end.

Definition first_char (s : string) : option ascii :=
  match s with "" => None | String c _ => Some c end.

Fixpoint last_char (s : string) : option ascii :=
  match s with
  | "" => None
  | String c "" => Some c
  | String _ s' => last_char s'
  end.

(** The string does not begin (end) with a character of [p]. *)
Definition head_not (p : ascii → bool) (s : string) : Prop :=
  ∀ c, first_char s = Some c → p c = false.
Definition end_not (p : ascii → bool) (s : string) : Prop :=
  ∀ c, last_char s = Some c → p c = false.

(** The specification's words for the three steps of [NormalizedSkuKey]:
    [t] is [s] with the surrounding white space trimmed; [k] is [t] with
    its leading zero characters stripped. *)
Definition Trimmed (s t : string) : Prop :=
  ∃ l r, s = l +:+ t +:+ r ∧ all_chars Py.isspace l ∧ all_chars Py.isspace r
         ∧ head_not Py.isspace t ∧ end_not Py.isspace t.

Definition ZerosStripped (t k : string) : Prop :=
  ∃ z, t = z +:+ k ∧ all_chars (Py.is_char "0") z ∧ head_not (Py.is_char "0") k.

Definition NormalizedSkuKey (raw key : string) : Prop :=
  ∃ t k, Trimmed raw t ∧ ZerosStripped (Py.lower t) k
         ∧ key = (if decide (k = "") then Py.lower t else k).

(** ** Decoded JSON and the Python operations applied to it *)

#[warnings="-register-all"]
Inductive json : Type :=
| JNull
| JBool (b : bool)
| JInt (n : Z)
| JStr (s : string)
| JList (l : list json)
| JDict (kvs : list (string * json)).

(** The exceptions the modelled code can raise; all derive from
    [Exception], so the [except Exception] of [fetch_catalog] catches
    every one of them. *)
Inductive exn : Type :=
| AttributeError | TypeError | KeyError | IndexError
| RequestError | JSONDecodeError.

Inductive result (A : Type) : Type :=
| Ok (a : A)
| Raise (e : exn).
Arguments Ok {A} a.
Arguments Raise {A} e.

Module PyJson.

(** Truth value, as tested by [if not x]. *)
Definition truthy (j : json) : bool :=
  match j with
  | JNull => false
  | JBool b => b
  | JInt n => negb (n =? 0)%Z
  | JStr s => Py.str_truthy s
  | JList l => match l with [] => false | _ => true end
  | JDict kvs => match kvs with [] => false | _ => true end
  end.

(** Lookup in a [dict] (its keys are distinct). *)
Fixpoint dict_get (kvs : list (string * json)) (k : string) : option json :=
  match kvs with
  | [] => None
  | (k', v) :: kvs' => if String.eqb k' k then Some v else dict_get kvs' k
  end.

(** [d.get(k)] on a value known to be a dict: [None] when absent. *)
Definition get (kvs : list (string * json)) (k : string) : json :=
  default JNull (dict_get kvs k).

(** [d.get(k, dflt)]. *)
Definition get_or (kvs : list (string * json)) (k : string) (dflt : json) : json :=
  default dflt (dict_get kvs k).

(** [x.get] on an arbitrary value: only a dict has the method. *)
Definition as_dict (j : json) : result (list (string * json)) :=
  match j with
  | JDict kvs => Ok kvs
  | _ => Raise AttributeError
  end.

Fixpoint chars (s : string) : list json :=
  match s with
  | "" => []
  | String c s' => JStr (String c "") :: chars s'
  end.

(** [for x in j]: a list yields its elements, a string its characters,
    a dict its keys; nothing else is iterable. *)
Definition iter (j : json) : result (list json) :=
  match j with
  | JList l => Ok l
  | JStr s => Ok (chars s)
  | JDict kvs => Ok (JStr <$> kvs.*1)
  | _ => Raise TypeError
  end.

(** [j[0]]. *)
Definition item0 (j : json) : result json :=
  match j with
  | JList (x :: _) => Ok x
  | JList [] => Raise IndexError
  | JStr (String c _) => Ok (JStr (String c ""))
  | JStr "" => Raise IndexError
  | JDict _ => Raise KeyError
  | _ => Raise TypeError
  end.

Fixpoint join (sep : string) (l : list string) : string :=
  match l with
  | [] => ""
  | [x] => x
  | x :: l' => x +:+ sep +:+ join sep l'
  end.

Fixpoint contains (c : ascii) (s : string) : bool :=
  match s with
  | "" => false
  | String c' s' => Ascii.eqb c c' || contains c s'
  end.

Definition hex_digit (n : N) : ascii :=
  ascii_of_N (if (n <? 10)%N then 48 + n else 87 + n).

Definition quote1 : ascii := "'".
Definition quote2 : ascii := "034".
Definition backslash : ascii := "\".

Definition escape_char (q c : ascii) : string :=
  let n := N_of_ascii c in
  if Ascii.eqb c q || Ascii.eqb c backslash then String backslash (String c "")
  else if (n =? 9)%N then "\t"
  else if (n =? 10)%N then "\n"
  else if (n =? 13)%N then "\r"
  else if ((n <? 32) || (127 <=? n) && (n <=? 160) || (n =? 173))%N
  then String backslash
         (String "x" (String (hex_digit (n / 16)) (String (hex_digit (n mod 16)) "")))
  else String c "".

Fixpoint escape (q : ascii) (s : string) : string :=
  match s with
  | "" => ""
  | String c s' => escape_char q c +:+ escape q s'
  end.

(** [repr] of a string. *)
Definition repr_str (s : string) : string :=
  let q := if contains quote1 s && negb (contains quote2 s) then quote2 else quote1 in
  String q (escape q s +:+ String q "").

(** [repr] of a decoded JSON value. *)
Fixpoint repr (j : json) : string :=
  match j with
  | JNull => "None"
  | JBool true => "True"
  | JBool false => "False"
  | JInt n => pretty n
  | JStr s => repr_str s
  | JList l => "[" +:+ join ", " (map repr l) +:+ "]"
  | JDict kvs =>
      "{" +:+ join ", " (map (λ kv, repr_str kv.1 +:+ ": " +:+ repr kv.2) kvs) +:+ "}"
  end.

(** [str(j)], which is also how an f-string formats [j]. *)
Definition str (j : json) : string :=
  match j with
  | JStr s => s
  | _ => repr j
  end.

(** [j != "Default Title"]. *)
Definition ne_str (j : json) (s : string) : bool :=
  match j with
  | JStr s' => negb (String.eqb s' s)
  | _ => true
  end.

End PyJson.

(** ** [ShopifyCatalogIndexer] *)

(** One catalog entry, the dict built at lines 85-100.  Every field but
    [product_url] holds the JSON value as received; [name] is either the
    formatted string or the product title itself. *)
Record variant_data : Type := VariantData {
  vd_sku : json;
  vd_product_id : json;
  vd_variant_id : json;
  vd_handle : json;
  vd_title : json;
  vd_variant_title : json;
  vd_name : json;
  vd_price : json;
  vd_rrp : json;
  vd_available : json;
  vd_product_type : json;
  vd_published_at : json;
  vd_image_url : json;
  vd_product_url : string
}.

(** The object's attributes. *)
Record indexer : Type := Indexer {
  base_url : string;
  products_url : string;
  catalog : gmap string variant_data;
  indexed : bool
}.

Definition set_catalog (self : indexer) (c : gmap string variant_data) : indexer :=
  {| base_url := base_url self; products_url := products_url self;
     catalog := c; indexed := indexed self |}.

Definition set_indexed (self : indexer) (b : bool) : indexer :=
  {| base_url := base_url self; products_url := products_url self;
     catalog := catalog self; indexed := b |}.

(** What [client.get(url, timeout=30.0)] followed by [response.json()]
    can do: the request raises, or a response arrives with a status code
    and a body that decodes to JSON ([Some]) or does not ([None], so
    [response.json()] raises). *)
Inductive http_outcome : Type :=
| GetRaises
| Response (status_code : Z) (body : option json).

(** The server, as seen through the client: the outcome of a GET of
    each URL.  [fetch_catalog] requests no URL twice. *)
Definition http_client : Type := string → http_outcome.

(** Observable effects of [fetch_catalog], in order. *)
Inductive event : Type :=
| EvGet (url : string)
| EvSleep (delay_ms : Z).

Module ShopifyCatalogIndexer.

(** [__init__], lines 9-13. *)
Definition init (url : string) : indexer :=
  let base := Py.rstrip (Py.is_char "/") url in
  {| base_url := base; products_url := base +:+ "/products.json";
     catalog := ∅; indexed := false |}.

(** Lines 66-67: [images[0].get("src") if images else None]. *)
Definition main_image_of (images : json) : result json :=
  if PyJson.truthy images then
    match PyJson.item0 images with
    | Raise e => Raise e
    | Ok first =>
        match PyJson.as_dict first with
        | Raise e => Raise e
        | Ok d => Ok (PyJson.get d "src")
        end
    end
  else Ok JNull.

(** Lines 85-100, for a variant [v] of the product [p]. *)
Definition make_variant_data (self : indexer) (p : list (string * json))
    (main_image : json) (v : list (string * json)) : variant_data :=
  let handle := PyJson.get p "handle" in
  let title := PyJson.get p "title" in
  {| vd_sku := PyJson.get v "sku";
     vd_product_id := PyJson.get p "id";
     vd_variant_id := PyJson.get v "id";
     vd_handle := handle;
     vd_title := title;
     vd_variant_title := PyJson.get v "title";
     vd_name :=
       if PyJson.ne_str (PyJson.get v "title") "Default Title"
       then JStr (PyJson.str title +:+ " - " +:+ PyJson.str (PyJson.get v "title"))
       else title;
     vd_price := PyJson.get v "price";
     vd_rrp := PyJson.get v "compare_at_price";
     vd_available := PyJson.get v "available";
     vd_product_type := PyJson.get p "product_type";
     vd_published_at := PyJson.get p "published_at";
     vd_image_url := main_image;
     vd_product_url :=
       base_url self +:+ "/products/" +:+ PyJson.str handle
         +:+ "?variant=" +:+ PyJson.str (PyJson.get v "id") |}.

(** The loop of lines 71-103 over the values [variants] iterates to. *)
Fixpoint index_variants (self : indexer) (p : list (string * json))
    (main_image : json) (variants : list json) : indexer * result () :=
  match variants with
  | [] => (self, Ok ())
  | variant :: rest =>
      match PyJson.as_dict variant with
      | Raise e => (self, Raise e)
      | Ok v =>
          let sku := PyJson.get v "sku" in
          if negb (PyJson.truthy sku) then index_variants self p main_image rest
          else
            let sku_key := index_sku_key (PyJson.str sku) in
            let variant_data := make_variant_data self p main_image v in
            index_variants
              (set_catalog self (<[sku_key := variant_data]> (catalog self)))
              p main_image rest
      end
  end.

(** [_index_product], lines 55-103. *)
Definition _index_product (self : indexer) (product : json) : indexer * result () :=
  match PyJson.as_dict product with
  | Raise e => (self, Raise e)
  | Ok p =>
      let images := PyJson.get_or p "images" (JList []) in
      match main_image_of images with
      | Raise e => (self, Raise e)
      | Ok main_image =>
          let variants := PyJson.get_or p "variants" (JList []) in
          match PyJson.iter variants with
          | Raise e => (self, Raise e)
          | Ok vs => index_variants self p main_image vs
          end
      end
  end.

(** Lines 41-42: [for product in products: self._index_product(product)]. *)
Fixpoint index_products (self : indexer) (products : list json) : indexer * result () :=
  match products with
  | [] => (self, Ok ())
  | product :: rest =>
      match _index_product self product with
      | (self', Ok _) => index_products self' rest
      | (self', Raise e) => (self', Raise e)
      end
  end.

(** Line 27. *)
Definition page_url (self : indexer) (limit_per_page page : Z) : string :=
  products_url self +:+ "?limit=" +:+ pretty limit_per_page
    +:+ "&page=" +:+ pretty page.

(** One pass through the [try] block, lines 30-42: the indexer as the
    pass leaves it, and [Ok true] when the page was indexed (the loop
    goes on), [Ok false] on either [break], [Raise] when an exception
    reaches the handler. *)
Definition fetch_page (client : http_client) (url : string) (self : indexer)
    : indexer * result bool :=
  match client url with
  | GetRaises => (self, Raise RequestError)
  | Response status_code body =>
      if negb (status_code =? 200)%Z then (self, Ok false)
      else
        match body with
        | None => (self, Raise JSONDecodeError)
        | Some data =>
            match PyJson.as_dict data with
            | Raise e => (self, Raise e)
            | Ok d =>
                let products := PyJson.get_or d "products" (JList []) in
                if negb (PyJson.truthy products) then (self, Ok false)
                else
                  match PyJson.iter products with
                  | Raise e => (self, Raise e)
                  | Ok ps =>
                      match index_products self ps with
                      | (self', Ok _) => (self', Ok true)
                      | (self', Raise e) => (self', Raise e)
                      end
                  end
            end
        end
  end.

(** The [while True] loop of lines 25-50.  [fuel] bounds the number of
    iterations; [None] means the loop is still running when it is spent. *)
Fixpoint fetch_loop (fuel : nat) (client : http_client) (limit_per_page delay_ms : Z)
    (self : indexer) (page : Z) (total_skus : nat) (trace : list event)
    : option (indexer * nat * list event) :=
  match fuel with
  | O => None
  | S fuel' =>
      let url := page_url self limit_per_page page in
      match fetch_page client url self with
      | (self', Ok true) =>
          fetch_loop fuel' client limit_per_page delay_ms self' (page + 1)
            (size (catalog self')) (trace ++ [EvGet url; EvSleep delay_ms])
      | (self', _) => Some (self', total_skus, trace ++ [EvGet url])
      end
  end.

(** [fetch_catalog], lines 15-53: the indexer afterwards, the returned
    count and the requests and sleeps performed. *)
Definition fetch_catalog (fuel : nat) (client : http_client) (self : indexer)
    (limit_per_page delay_ms : Z) : option (indexer * nat * list event) :=
  match fetch_loop fuel client limit_per_page delay_ms self 1 0 [] with
  | Some (self', total_skus, trace) => Some (set_indexed self' true, total_skus, trace)
  | None => None
  end.

(** [lookup_sku], lines 105-119. *)
Definition lookup_sku (self : indexer) (sku : string) : option variant_data :=
  if negb (indexed self) then None
  else catalog self !! lookup_sku_key sku.

End ShopifyCatalogIndexer.

(** ** Feeds: the shape of a page and what indexing it records *)

Definition entry : Type := string * variant_data.

(** [self.catalog[k] = v] for each entry, in order. *)
Definition insert_all (c : gmap string variant_data) (es : list entry)
    : gmap string variant_data :=
  foldl (λ m e, <[e.1 := e.2]> m) c es.

Definition is_dict (j : json) : bool :=
  match j with JDict _ => true | _ => false end.

(** The [images] and [variants] values [_index_product] gets through
    without raising, and the products it does. *)
Definition images_ok (images : json) : bool :=
  negb (PyJson.truthy images)
  || match images with JList (JDict _ :: _) => true | _ => false end.

Definition variants_ok (variants : json) : bool :=
  match PyJson.iter variants with
  | Ok vs => forallb is_dict vs
  | Raise _ => false
  end.

Definition product_ok (product : json) : bool :=
  match product with
  | JDict p =>
      images_ok (PyJson.get_or p "images" (JList []))
      && variants_ok (PyJson.get_or p "variants" (JList []))
  | _ => false
  end.

(** The entry of one variant object: none without a SKU. *)
Definition variant_entry (self : indexer) (p : list (string * json))
    (main_image : json) (variant : json) : option entry :=
  match variant with
  | JDict v =>
      if PyJson.truthy (PyJson.get v "sku")
      then Some (index_sku_key (PyJson.str (PyJson.get v "sku")),
                 ShopifyCatalogIndexer.make_variant_data self p main_image v)
      else None
  | _ => None
  end.

(** The variants reached before the first value that is not an object. *)
Fixpoint leading_dicts (vs : list json) : list json :=
  match vs with
  | JDict v :: rest => JDict v :: leading_dicts rest
  | _ => []
  end.

(** The entries of a product, in the order of its variants; for a
    product that is not [product_ok], those recorded before it raises. *)
Definition product_entries (self : indexer) (product : json) : list entry :=
  match product with
  | JDict p =>
      match ShopifyCatalogIndexer.main_image_of (PyJson.get_or p "images" (JList [])),
            PyJson.iter (PyJson.get_or p "variants" (JList [])) with
      | Ok main_image, Ok vs => omap (variant_entry self p main_image) (leading_dicts vs)
      | _, _ => []
      end
  | _ => []
  end.

(** The entries of a list of products, up to and including those of the
    first product that is not [product_ok]. *)
Fixpoint products_entries (self : indexer) (ps : list json) : list entry :=
  match ps with
  | [] => []
  | p :: rest =>
      product_entries self p
        ++ (if product_ok p then products_entries self rest else [])
  end.

Inductive page_kind : Type :=
| PageGood (products : list json)   (* a non-empty page of well-formed products *)
| PageEmpty                         (* status 200, no product: end of the feed *)
| PageFailed.                       (* anything else *)

Definition classify (o : http_outcome) : page_kind :=
  match o with
  | Response status_code (Some (JDict d)) =>
      let products := PyJson.get_or d "products" (JList []) in
      if negb (status_code =? 200)%Z then PageFailed
      else if negb (PyJson.truthy products) then PageEmpty
      else match PyJson.iter products with
           | Ok ps => if forallb product_ok ps then PageGood ps else PageFailed
           | Raise _ => PageFailed
           end
  | _ => PageFailed
  end.

(** The entries a page records: all of them for a good page, those that
    precede the failure for a failed one. *)
Definition page_entries (self : indexer) (o : http_outcome) : list entry :=
  match o with
  | Response status_code (Some (JDict d)) =>
      let products := PyJson.get_or d "products" (JList []) in
      if negb (status_code =? 200)%Z then []
      else if negb (PyJson.truthy products) then []
      else match PyJson.iter products with
           | Ok ps => products_entries self ps
           | Raise _ => []
           end
  | _ => []
  end.

(** Pages are numbered from 1; [nth_url self limit i] is the URL of page [i+1]. *)
Definition nth_url (self : indexer) (limit_per_page : Z) (i : nat) : string :=
  ShopifyCatalogIndexer.page_url self limit_per_page (Z.of_nat (S i)).

(** The server answers the first [length pages] pages with the given
    non-empty lists of well-formed products. *)
Definition serves (client : http_client) (self : indexer) (limit_per_page : Z)
    (pages : list (list json)) : Prop :=
  ∀ i ps, pages !! i = Some ps →
    classify (client (nth_url self limit_per_page i)) = PageGood ps.

Definition feed_entries (self : indexer) (pages : list (list json)) : list entry :=
  pages ≫= products_entries self.

Definition get_urls (trace : list event) : list string :=
  omap (λ e, match e with EvGet u => Some u | EvSleep _ => None end) trace.

(** The requests and sleeps of a run that fetches pages [i+1 .. i+k+1],
    the last of which ends the loop. *)
Fixpoint loop_events (self : indexer) (limit_per_page delay_ms : Z) (i k : nat)
    : list event :=
  match k with
  | O => [EvGet (nth_url self limit_per_page i)]
  | S k' =>
      EvGet (nth_url self limit_per_page i) :: EvSleep delay_ms
        :: loop_events self limit_per_page delay_ms (S i) k'
  end.


Definition is_ok {A} (r : result A) : bool :=
  match r with Ok _ => true | Raise _ => false end.

(** ** The input normaliser of [src/app.py] *)

Definition row : Type := gmap string (option string).

Record item : Type := Item { it_sku : option string; it_url : option string }.

Module App.

(** [r.get(k)]: [None] for a missing key as for a stored [None]. *)
Definition get (r : row) (k : string) : option string := mjoin (r !! k).

(** [a or b] on values that are [None] or a [str]. *)
Definition or_ (a b : option string) : option string :=
  match a with
  | Some s => if Py.str_truthy s then a else b
  | None => b
  end.

(** Lines 28-29: [(r.get(K) or r.get(k) or "").strip() or None]. *)
Definition field (r : row) (K k : string) : option string :=
  let s := Py.strip (default "" (or_ (or_ (get r K) (get r k)) (Some ""))) in
  if Py.str_truthy s then Some s else None.

(** Line 34. *)
Definition key_of (sku url : option string) : string * string :=
  (Py.lower (default "" sku), Py.lower (default "" url)).

(** The loop body, lines 27-38, on the pair [(seen, out)]. *)
Definition step (st : gset (string * string) * list item) (r : row)
    : gset (string * string) * list item :=
  let '(seen, out) := st in
  let sku := field r "SKU" "sku" in
  let url := field r "URL" "url" in
  if negb (bool_decide (is_Some sku)) && negb (bool_decide (is_Some url)) then st
  else
    let key := key_of sku url in
    if bool_decide (key ∈ seen) then st
    else ({[key]} ∪ seen, out ++ [{| it_sku := sku; it_url := url |}]).

(** [_normalise_rows], lines 23-39. *)
Definition _normalise_rows (rows : list row) : list item :=
  (foldl step (∅, []) rows).2.

End App.

(** The item the loop body of [_normalise_rows] (lines 28-32) makes of a
    row, if it does not skip it: a reading of the code, by which the loop
    is related to the specification's words below. *)
Definition item_of_row (r : row) : option item :=
  let sku := App.field r "SKU" "sku" in
  let url := App.field r "URL" "url" in
  if bool_decide (is_Some sku) || bool_decide (is_Some url)
  then Some {| it_sku := sku; it_url := url |} else None.

(** The specification's words for the normaliser.  Nothing below uses a
    function of [App]. *)

(** The identity key of an item. *)
Definition item_key (it : item) : string * string :=
  (Py.lower (default "" (it_sku it)), Py.lower (default "" (it_url it))).

(** A field is populated when it is present and not only white space. *)
Definition populated (v : option string) : bool :=
  match v with
  | Some s => negb (all_chars Py.isspace s)
  | None => false
  end.

(** The value a row states for a field: the one under the upper-case
    name when that is a non-empty string, else the one under the
    lower-case name ([None] when neither name holds a string). *)
Definition stated_value (r : row) (K k : string) : option string :=
  match mjoin (r !! K) with
  | Some (String c s) => Some (String c s)
  | _ => mjoin (r !! k)
  end.

(** A populated value, trimmed; a value that is absent or white space
    only counts as absent. *)
Definition trimmed_field (v : option string) : option string :=
  match v with
  | Some s => if populated v then Some (Py.strip s) else None
  | None => None
  end.

(** The item a row stands for: its trimmed sku and url, when one of
    them is populated. *)
Definition stated_item (r : row) : option item :=
  let sku := stated_value r "SKU" "sku" in
  let url := stated_value r "URL" "url" in
  if populated sku || populated url
  then Some {| it_sku := trimmed_field sku; it_url := trimmed_field url |}
  else None.

(** The row that states the given sku and url under the lower-case
    names and nothing else ([None] is a JSON null). *)
Definition raw_row (sku url : option string) : row :=
  <["sku" := sku]> (<["url" := url]> ∅).

(** First occurrences of each identity key, in input order. *)
Fixpoint first_occurrences (l : list item) : list item :=
  match l with
  | [] => []
  | x :: l' =>
      x :: filter (λ y, item_key y ≠ item_key x) (first_occurrences l')
  end.

(** The items of [l] the loop appends once the keys [seen] were met. *)
Fixpoint fresh_items (seen : gset (string * string)) (l : list item) : list item :=
  match l with
  | [] => []
  | x :: l' =>
      if decide (item_key x ∈ seen) then fresh_items seen l'
      else x :: fresh_items ({[item_key x]} ∪ seen) l'
  end.

(** ** Further observations on a run of [fetch_catalog] *)

(** The delays the run slept for, in order. *)
Definition sleeps (trace : list event) : list Z :=
  omap (λ e, match e with EvSleep d => Some d | EvGet _ => None end) trace.

(** The good pages the server answers with, from page [i+1] on, up to
    the first page that is not good and at most [n] of them. *)
Fixpoint good_pages (client : http_client) (self : indexer) (limit_per_page : Z)
    (i n : nat) : list (list json) :=
  match n with
  | O => []
  | S n' =>
      match classify (client (nth_url self limit_per_page i)) with
      | PageGood ps => ps :: good_pages client self limit_per_page (S i) n'
      | _ => []
      end
  end.

(** Every record is stored under the key of the SKU it displays. *)
Definition keyed_by_sku (c : gmap string variant_data) : Prop :=
  ∀ key r, c !! key = Some r →
    PyJson.truthy (vd_sku r) = true ∧ key = index_sku_key (PyJson.str (vd_sku r)).

(** ** The parts of [main] in [src/app.py] around the two functions above *)

(** [str.splitlines()] on code points below 256: LF, VT, FF, CR, FS, GS,
    RS and NEL end a line, CR LF counts once, and a final line end opens
    no empty last line. *)
Definition is_linebreak (c : ascii) : bool :=
  let n := N_of_ascii c in
  ((10 <=? n) && (n <=? 13) || (28 <=? n) && (n <=? 30) || (n =? 133))%N.

Fixpoint splitlines (s : string) : list string :=
  match s with
  | "" => []
  | String c s' =>
      if is_linebreak c then
        "" :: match c, s' with
              | "013"%char, String "010"%char s'' => splitlines s''
              | _, _ => splitlines s'
              end
      else
        match splitlines s' with
        | [] => [String c ""]
        | line :: lines => String c line :: lines
        end
  end.

(** The dict [_normalise_rows] appends for an item, line 38. *)
Definition row_of_item (it : item) : row :=
  <["sku" := it_sku it]> (<["url" := it_url it]> ∅).

Module AppMain.

(** Lines 133 and 137: the rows made of a text area's non-blank lines,
    [[{field: s.strip()} for s in text.splitlines() if s.strip()]],
    under the guard [if text.strip()]. *)
Definition manual_rows (field text : string) : list row :=
  if Py.str_truthy (Py.strip text)
  then (λ s, {[ field := Some (Py.strip s) ]}) <$>
         filter (λ s, Py.str_truthy (Py.strip s) = true) (splitlines text)
  else [].

(** What pressing "Scrape Items" gathers, lines 118-144. *)
Inductive gathered : Type :=
| CsvFailed                      (* reading the CSV raised: [st.error], return *)
| NoItems                        (* [st.warning], return *)
| Items (items : list item).

(** [csv] is [None] without an uploaded file, and otherwise what
    [pd.read_csv(..., dtype=str, keep_default_na=False)] followed by
    [to_dict(orient="records")] gave. *)
Definition gather (csv : option (result (list row))) (sku_input url_input : string)
    : gathered :=
  match csv with
  | Some (Raise _) => CsvFailed
  | _ =>
      let csv_rows := match csv with Some (Ok rows) => rows | _ => [] end in
      let raw_rows := csv_rows ++ manual_rows "sku" sku_input
                               ++ manual_rows "url" url_input in
      let items := App._normalise_rows raw_rows in
      match items with
      | [] => NoItems
      | _ => Items items
      end
  end.

(** [get_cached_indexer], lines 151-158, on a cache miss. *)
Definition get_cached_indexer (fuel : nat) (client : http_client) (url : string)
    : option (indexer * list event) :=
  match ShopifyCatalogIndexer.fetch_catalog fuel client
          (ShopifyCatalogIndexer.init url) 250 100 with
  | Some (idx, _, trace) => Some (idx, trace)
  | None => None
  end.

(** Lines 146-169: the indexer handed to the scraper, if any, and the
    requests made for it.  [None] stands for a catalog download that is
    still running when [fuel] is spent. *)
Definition prepare_indexer (fuel : nat) (client : http_client)
    (cms_choice origin : string) : option (option indexer * list event) :=
  if String.eqb cms_choice "Shopify" && Py.str_truthy origin then
    match get_cached_indexer fuel client origin with
    | Some (idx, trace) =>
        Some (if Nat.eqb (size (catalog idx)) 0 then None else Some idx, trace)
    | None => None
    end
  else Some (None, []).

(** Lines 278-279: [sorted(indexer.catalog.keys())] and its text.  The
    order of [str] is the lexicographic order of code points; the sorted
    list of distinct keys does not depend on the order they come in. *)
Definition all_skus (self : indexer) : list string :=
  merge_sort String.le (map_to_list (catalog self)).*1.

Definition txt_content (self : indexer) : string :=
  PyJson.join (String "010" "") (all_skus self).

End AppMain.

(** An item as the normaliser makes them: a field is populated, and a
    populated field is a non-empty string with no white space around. *)
Definition item_ok (it : item) : Prop :=
  (is_Some (it_sku it) ∨ is_Some (it_url it))
  ∧ ∀ v, it_sku it = Some v ∨ it_url it = Some v → v ≠ "" ∧ Py.strip v = v.

(** ** Concrete feeds used to exercise the statements *)

Definition products_page (products : list json) : http_outcome :=
  Response 200 (Some (JDict [("products", JList products)])).

Definition simple_product (handle title sku : string) : json :=
  JDict [("id", JInt 1); ("handle", JStr handle); ("title", JStr title);
         ("variants",
          JList [JDict [("id", JInt 7); ("sku", JStr sku);
                        ("title", JStr "Default Title"); ("price", JStr "9.95")]])].

(** The two-page catalog of the specification's end-to-end scenario:
    page 1 holds SKU ["ABC-1"], page 2 SKU ["073302"], page 3 is empty. *)
Definition scenario_url : string := "https://shop.example/".
Definition scenario_pages : list (list json) :=
  [[simple_product "widget" "Widget" "ABC-1"];
   [simple_product "gadget" "Gadget" "073302"]].
Definition scenario_client : http_client := λ url,
  if String.eqb url "https://shop.example/products.json?limit=250&page=1"
  then products_page [simple_product "widget" "Widget" "ABC-1"]
  else if String.eqb url "https://shop.example/products.json?limit=250&page=2"
  then products_page [simple_product "gadget" "Gadget" "073302"]
  else products_page [].

(** The same feed with a third page that is refused (HTTP 429). *)
Definition throttled_client : http_client := λ url,
  if String.eqb url "https://shop.example/products.json?limit=250&page=3"
  then Response 429 None
  else scenario_client url.

(** A feed whose first page holds a well-formed product followed by a
    value that is not an object. *)
Definition broken_client : http_client := λ _,
  products_page [simple_product "widget" "Widget" "ABC-1"; JStr "oops"].

(** A feed whose second page holds a product with the key of page 1's
    SKU, followed by a value that is not an object. *)
Definition overwriting_client : http_client := λ url,
  if String.eqb url "https://shop.example/products.json?limit=250&page=1"
  then products_page [simple_product "widget" "Widget" "ABC-1"]
  else products_page [simple_product "other" "Other" "abc-1"; JStr "oops"].

(** A one-page feed in which two distinct raw SKUs share a key. *)
Definition collision_products : list json :=
  [simple_product "first" "First" "073302"; simple_product "second" "Second" "73302"].
Definition collision_client : http_client := λ url,
  if String.eqb url "https://shop.example/products.json?limit=250&page=1"
  then products_page collision_products
  else products_page [].

(** * Properties *)

(** ** Characters *)

Ltac each_char c := destruct c as [[] [] [] [] [] [] [] []]; vm_compute; try done.

Lemma lower_char_idem c : Py.lower_char (Py.lower_char c) = Py.lower_char c.
Proof. each_char c. Qed.

Lemma isspace_lower_char c : Py.isspace (Py.lower_char c) = Py.isspace c.
Proof. each_char c. Qed.

Lemma is_zero_lower_char c :
  Py.is_char "0" (Py.lower_char c) = Py.is_char "0" c.
Proof. each_char c. Qed.

Lemma zero_not_space c : Py.is_char "0" c = true → Py.isspace c = false.
Proof. each_char c. Qed.

Lemma is_zero_lower_fixed c : Py.is_char "0" c = true → Py.lower_char c = c.
Proof. each_char c. Qed.

(** ** Strings: append, first and last character *)

Lemma app_cons c a b : String c a +:+ b = String c (a +:+ b).
Proof. reflexivity. Qed.

Lemma app_nil_l' (s : string) : "" +:+ s = s.
Proof. reflexivity. Qed.

Lemma app_nil_r' (s : string) : s +:+ "" = s.
Proof. induction s as [|c s IH]; [done|]. by rewrite app_cons, IH. Qed.

Lemma app_assoc' (a b c : string) : (a +:+ b) +:+ c = a +:+ b +:+ c.
Proof. induction a as [|x a IH]; [done|]. by rewrite !app_cons, IH. Qed.

Lemma app_eq_nil (a b : string) : a +:+ b = "" → a = "" ∧ b = "".
Proof. destruct a; [done|]. by rewrite app_cons. Qed.

Lemma length_app (a b : string) :
  String.length (a +:+ b) = String.length a + String.length b.
Proof. induction a as [|x a IH]; [done|]. rewrite app_cons. simpl. lia. Qed.

Lemma first_char_app a b : a ≠ "" → first_char (a +:+ b) = first_char a.
Proof. by destruct a. Qed.

Lemma last_char_cons c s : s ≠ "" → last_char (String c s) = last_char s.
Proof. by destruct s. Qed.

Lemma last_char_app a b : b ≠ "" → last_char (a +:+ b) = last_char b.
Proof.
  intros Hb. induction a as [|x a IH]; [done|].
  rewrite app_cons, last_char_cons; [done|].
  intros [_ ?]%app_eq_nil. done.
Qed.

Lemma head_not_nil p : head_not p "".
Proof. by intros c. Qed.

Lemma end_not_nil p : end_not p "".
Proof. by intros c. Qed.

Lemma head_not_cons p c s : head_not p (String c s) ↔ p c = false.
Proof.
  split; [intros H; by apply H|]. intros H c' [= <-]. done.
Qed.

Lemma all_chars_app p a b :
  all_chars p (a +:+ b) = all_chars p a && all_chars p b.
Proof.
  induction a as [|x a IH]; [done|]. rewrite app_cons. simpl.
  by rewrite IH, andb_assoc.
Qed.

(** ** [lstrip] and [rstrip] *)

Section strip.
Context (p : ascii → bool).

Lemma lstrip_split s : ∃ l, s = l +:+ Py.lstrip p s ∧ all_chars p l = true.
Proof.
  induction s as [|c s [l [Hs Hl]]]; [by exists ""|]. simpl.
  destruct (p c) eqn:Hc.
  - exists (String c l). rewrite app_cons, <- Hs. simpl. by rewrite Hc, Hl.
  - by exists "".
Qed.

Lemma lstrip_head_not s : head_not p (Py.lstrip p s).
Proof.
  induction s as [|c s IH]; [apply head_not_nil|]. simpl.
  destruct (p c) eqn:Hc; [done|]. by apply head_not_cons.
Qed.

Lemma lstrip_id s : head_not p s → Py.lstrip p s = s.
Proof.
  destruct s as [|c s]; [done|]. intros Hc%head_not_cons. simpl. by rewrite Hc.
Qed.

Lemma lstrip_app_all l s :
  all_chars p l = true → Py.lstrip p (l +:+ s) = Py.lstrip p s.
Proof.
  induction l as [|c l IH]; [done|]. simpl.
  intros [Hc Hl]%andb_true_iff. rewrite Hc. auto.
Qed.

Lemma lstrip_all l : all_chars p l = true → Py.lstrip p l = "".
Proof.
  intros Hl. rewrite <- (app_nil_r' l). by rewrite lstrip_app_all.
Qed.

Lemma lstrip_length s : String.length (Py.lstrip p s) ≤ String.length s.
Proof.
  induction s as [|c s IH]; [done|]. simpl. destruct (p c); simpl; lia.
Qed.

Lemma lstrip_length_lt c s :
  p c = true → String.length (Py.lstrip p (String c s)) < String.length (String c s).
Proof. intros Hc. simpl. rewrite Hc. pose proof (lstrip_length s). lia. Qed.

Lemma rstrip_cons c s :
  Py.rstrip p (String c s) =
    if decide (Py.rstrip p s = "") then (if p c then "" else String c "")
    else String c (Py.rstrip p s).
Proof. simpl. by destruct (Py.rstrip p s). Qed.

Lemma rstrip_split s : ∃ r, s = Py.rstrip p s +:+ r ∧ all_chars p r = true.
Proof.
  induction s as [|c s [r [Hs Hr]]]; [by exists ""|].
  rewrite rstrip_cons. case_decide as Hnil.
  - rewrite Hnil, app_nil_l' in Hs. subst r. destruct (p c) eqn:Hc.
    + exists (String c s). simpl. by rewrite Hc, Hr.
    + by exists s.
  - exists r. by rewrite app_cons, <- Hs.
Qed.

Lemma rstrip_end_not s : end_not p (Py.rstrip p s).
Proof.
  induction s as [|c s IH]; [apply end_not_nil|].
  rewrite rstrip_cons. case_decide as Hnil.
  - destruct (p c) eqn:Hc; [apply end_not_nil|]. by intros c' [= <-].
  - intros c'. rewrite last_char_cons by done. apply IH.
Qed.

Lemma rstrip_all r : all_chars p r = true → Py.rstrip p r = "".
Proof.
  induction r as [|c r IH]; [done|]. simpl. intros [Hc Hr]%andb_true_iff.
  by rewrite IH, Hc.
Qed.

Lemma rstrip_id s : end_not p s → Py.rstrip p s = s.
Proof.
  induction s as [|c s IH]; [done|]. intros Hend.
  rewrite rstrip_cons. destruct s as [|c' s].
  - simpl. by rewrite (Hend c).
  - rewrite IH.
    + by rewrite decide_False.
    + intros x Hx. apply Hend. by rewrite last_char_cons.
Qed.

Lemma rstrip_app_all t r :
  all_chars p r = true → Py.rstrip p (t +:+ r) = Py.rstrip p t.
Proof.
  intros Hr. induction t as [|c t IH]; [by apply rstrip_all|].
  by rewrite app_cons, !rstrip_cons, IH.
Qed.

Lemma rstrip_app_keep a b :
  Py.rstrip p b ≠ "" → Py.rstrip p (a +:+ b) = a +:+ Py.rstrip p b.
Proof.
  intros Hb. induction a as [|c a IH]; [done|].
  rewrite app_cons, rstrip_cons, IH. rewrite decide_False; [done|].
  intros [_ ?]%app_eq_nil. done.
Qed.

Lemma rstrip_first_char s c :
  first_char (Py.rstrip p s) = Some c → first_char s = Some c.
Proof.
  destruct s as [|x s]; [done|]. rewrite rstrip_cons.
  case_decide; [destruct (p x)|]; by intros [= <-].
Qed.

Lemma rstrip_keeps_head s c :
  first_char s = Some c → p c = false → first_char (Py.rstrip p s) = Some c.
Proof.
  destruct s as [|x s]; [done|]. intros [= <-] Hc. rewrite rstrip_cons.
  case_decide; [by rewrite Hc|done].
Qed.

Lemma rstrip_length s : String.length (Py.rstrip p s) ≤ String.length s.
Proof.
  destruct (rstrip_split s) as [r [Hs _]].
  rewrite Hs at 2. rewrite length_app. lia.
Qed.

End strip.

(** ** [lower] *)

Lemma lower_app a b : Py.lower (a +:+ b) = Py.lower a +:+ Py.lower b.
Proof. induction a as [|c a IH]; [done|]. rewrite !app_cons. simpl. by rewrite IH. Qed.

Lemma lower_idem s : Py.lower (Py.lower s) = Py.lower s.
Proof. induction s as [|c s IH]; [done|]. simpl. by rewrite lower_char_idem, IH. Qed.

Lemma lower_length s : String.length (Py.lower s) = String.length s.
Proof. induction s as [|c s IH]; [done|]. simpl. by rewrite IH. Qed.

Lemma lower_eq_nil s : Py.lower s = "" ↔ s = "".
Proof. by destruct s. Qed.

Lemma first_char_lower s : first_char (Py.lower s) = Py.lower_char <$> first_char s.
Proof. by destruct s. Qed.

Lemma last_char_lower s : last_char (Py.lower s) = Py.lower_char <$> last_char s.
Proof.
  induction s as [|c s IH]; [done|]. destruct s as [|c' s]; [done|].
  change (Py.lower (String c (String c' s)))
    with (String (Py.lower_char c) (Py.lower (String c' s))).
  rewrite (last_char_cons c (String c' s)) by done.
  rewrite (last_char_cons (Py.lower_char c)) by done. exact IH.
Qed.

Lemma head_not_lower p s :
  (∀ c, p (Py.lower_char c) = p c) → head_not p (Py.lower s) ↔ head_not p s.
Proof.
  intros Hp. unfold head_not. rewrite first_char_lower.
  destruct (first_char s) as [c|]; simpl; [|done].
  split; intros H x [= <-]; specialize (H _ eq_refl); by rewrite ?Hp in *.
Qed.

Lemma end_not_lower p s :
  (∀ c, p (Py.lower_char c) = p c) → end_not p (Py.lower s) ↔ end_not p s.
Proof.
  intros Hp. unfold end_not. rewrite last_char_lower.
  destruct (last_char s) as [c|]; simpl; [|done].
  split; intros H x [= <-]; specialize (H _ eq_refl); by rewrite ?Hp in *.
Qed.

Lemma lower_zeros z : all_chars (Py.is_char "0") z = true → Py.lower z = z.
Proof.
  induction z as [|c z IH]; [done|]. simpl. intros [Hc Hz]%andb_true_iff.
  by rewrite is_zero_lower_fixed, IH.
Qed.

Lemma lower_lstrip_fixed p s : Py.lower s = s → Py.lower (Py.lstrip p s) = Py.lstrip p s.
Proof.
  induction s as [|c s IH]; [done|]. intros Hs. simpl.
  destruct (p c); [|done]. apply IH. simpl in Hs. congruence.
Qed.

(** ** [strip] *)

Lemma strip_head_not s : head_not Py.isspace (Py.strip s).
Proof.
  intros c Hc%rstrip_first_char. by apply (lstrip_head_not Py.isspace s).
Qed.

Lemma strip_end_not s : end_not Py.isspace (Py.strip s).
Proof. apply rstrip_end_not. Qed.

Lemma strip_id s :
  head_not Py.isspace s → end_not Py.isspace s → Py.strip s = s.
Proof. intros Hh He. unfold Py.strip. by rewrite lstrip_id, rstrip_id. Qed.

Lemma strip_trimmed s : Trimmed s (Py.strip s).
Proof.
  destruct (lstrip_split Py.isspace s) as [l [Hs Hl]].
  destruct (rstrip_split Py.isspace (Py.lstrip Py.isspace s)) as [r [Hu Hr]].
  exists l, r. fold (Py.strip s) in Hu. rewrite <- Hu.
  repeat split; [done|by rewrite Hl|by rewrite Hr|..].
  - apply strip_head_not.
  - apply strip_end_not.
Qed.

Lemma trimmed_strip s t : Trimmed s t → Py.strip s = t.
Proof.
  intros (l & r & -> & Hl%Is_true_true & Hr%Is_true_true & Hh & He).
  unfold Py.strip. rewrite lstrip_app_all by done.
  destruct t as [|c t].
  - rewrite app_nil_l', lstrip_all by done. done.
  - rewrite lstrip_id.
    + by rewrite rstrip_app_all, rstrip_id.
    + rewrite app_cons. apply head_not_cons. by apply (Hh c).
Qed.

(** Stripping the two ends commutes. *)
Lemma strip_alt s : Py.strip s = Py.lstrip Py.isspace (Py.rstrip Py.isspace s).
Proof.
  destruct (strip_trimmed s) as (l & r & Hs & Hl%Is_true_true & Hr%Is_true_true & Hh & He).
  rewrite Hs at 2. rewrite <- app_assoc', rstrip_app_all by done.
  destruct (decide (Py.strip s = "")) as [->|Hne].
  - by rewrite app_nil_r', rstrip_all.
  - rewrite rstrip_app_keep; rewrite rstrip_id by done; [|done].
    by rewrite lstrip_app_all, lstrip_id.
Qed.

Lemma strip_length s : String.length (Py.strip s) ≤ String.length s.
Proof.
  unfold Py.strip.
  pose proof (rstrip_length Py.isspace (Py.lstrip Py.isspace s)).
  pose proof (lstrip_length Py.isspace s). lia.
Qed.

(** ** The normalised key *)

Lemma lookup_sku_key_eq s : lookup_sku_key s = index_sku_key s.
Proof. reflexivity. Qed.

Example index_sku_key_073302 : index_sku_key "073302" = "73302".
Proof. reflexivity. Qed.
Example index_sku_key_00 : index_sku_key "00" = "00".
Proof. reflexivity. Qed.
Example index_sku_key_padded : index_sku_key "  00Ab-1 " = "ab-1".
Proof. reflexivity. Qed.
Example index_sku_key_inner_space : index_sku_key "0 1" = " 1".
Proof. reflexivity. Qed.

Lemma index_sku_key_unfold s :
  index_sku_key s =
    if decide (Py.lstrip (Py.is_char "0") (Py.lower (Py.strip s)) = "")
    then Py.lower (Py.strip s)
    else Py.lstrip (Py.is_char "0") (Py.lower (Py.strip s)).
Proof.
  unfold index_sku_key.
  by destruct (Py.lstrip (Py.is_char "0") (Py.lower (Py.strip s))).
Qed.

Lemma index_sku_key_length s :
  String.length (index_sku_key s) ≤ String.length (Py.strip s).
Proof.
  rewrite index_sku_key_unfold.
  pose proof (lstrip_length (Py.is_char "0") (Py.lower (Py.strip s))).
  rewrite lower_length in *. case_decide; [rewrite lower_length|]; lia.
Qed.

(** The key of a string that is already trimmed and lower case. *)
Lemma index_sku_key_trimmed t :
  head_not Py.isspace t → end_not Py.isspace t → Py.lower t = t →
  index_sku_key t =
    if decide (Py.lstrip (Py.is_char "0") t = "") then t
    else Py.lstrip (Py.is_char "0") t.
Proof.
  intros Hh He Hl. by rewrite index_sku_key_unfold, strip_id, !Hl.
Qed.

Lemma lower_strip_head_not s : head_not Py.isspace (Py.lower (Py.strip s)).
Proof. apply head_not_lower; [apply isspace_lower_char|apply strip_head_not]. Qed.

Lemma lower_strip_end_not s : end_not Py.isspace (Py.lower (Py.strip s)).
Proof. apply end_not_lower; [apply isspace_lower_char|apply strip_end_not]. Qed.

Lemma end_not_lstrip p q t :
  end_not p t → Py.lstrip q t ≠ "" → end_not p (Py.lstrip q t).
Proof.
  intros He Hne. destruct (lstrip_split q t) as [z [Ht _]].
  intros c Hc. apply He. rewrite Ht. by rewrite last_char_app.
Qed.

Lemma index_sku_key_idem_if s :
  head_not Py.isspace (index_sku_key s) →
  index_sku_key (index_sku_key s) = index_sku_key s.
Proof.
  rewrite (index_sku_key_unfold s).
  set (t := Py.lower (Py.strip s)). set (k := Py.lstrip (Py.is_char "0") t).
  assert (Py.lower t = t) as Hlow by apply lower_idem.
  case_decide as Hk; intros Hh.
  - rewrite index_sku_key_trimmed; [|done|apply lower_strip_end_not|done].
    fold k. by rewrite decide_True.
  - rewrite index_sku_key_trimmed; [|done| |by apply lower_lstrip_fixed].
    + rewrite (lstrip_id _ k) by apply lstrip_head_not. by case_decide.
    + apply end_not_lstrip; [apply lower_strip_end_not|done].
Qed.

Lemma index_sku_key_shrinks x c :
  first_char x = Some c → Py.isspace c = true →
  String.length (index_sku_key x) < String.length x.
Proof.
  intros Hx Hc. destruct x as [|c' x]; simplify_eq/=.
  pose proof (index_sku_key_length (String c x)).
  pose proof (lstrip_length_lt Py.isspace c x Hc).
  pose proof (rstrip_length Py.isspace (Py.lstrip Py.isspace (String c x))).
  unfold Py.strip in *. simpl in *. lia.
Qed.

Lemma all_chars_first p z c :
  all_chars p z = true → first_char z = Some c → p c = true.
Proof. destruct z; [done|]. simpl. intros [? _]%andb_true_iff [= <-]. done. Qed.

Lemma all_chars_last p z c :
  all_chars p z = true → last_char z = Some c → p c = true.
Proof.
  induction z as [|x z IH]; [done|]. simpl all_chars. intros [Hx Hz]%andb_true_iff.
  destruct z as [|y z]; [by intros [= <-]|].
  rewrite last_char_cons by done. by apply IH.
Qed.

Lemma zeros_head_not_space z : all_chars (Py.is_char "0") z = true → head_not Py.isspace z.
Proof. intros Hz c Hc. eapply zero_not_space, all_chars_first; eauto. Qed.

Lemma zeros_end_not_space z : all_chars (Py.is_char "0") z = true → end_not Py.isspace z.
Proof. intros Hz c Hc. eapply zero_not_space, all_chars_last; eauto. Qed.

(** The key of a string of zeros is the string itself. *)
Lemma index_sku_key_zeros z :
  all_chars (Py.is_char "0") z = true → index_sku_key z = z.
Proof.
  intros Hz. rewrite index_sku_key_trimmed;
    [|by apply zeros_head_not_space|by apply zeros_end_not_space|by apply lower_zeros].
  by rewrite lstrip_all.
Qed.

(** The key of zeros followed by a remainder that survives trimming. *)
Lemma index_sku_key_zeros_app z r :
  all_chars (Py.is_char "0") z = true →
  head_not Py.isspace (z +:+ r) →
  Py.rstrip Py.isspace r ≠ "" →
  head_not (Py.is_char "0") r →
  index_sku_key (z +:+ r) = Py.lower (Py.rstrip Py.isspace r).
Proof.
  intros Hz Hh Hr1 Hr0.
  assert (head_not (Py.is_char "0") (Py.lower (Py.rstrip Py.isspace r))) as Hk.
  { apply head_not_lower; [apply is_zero_lower_char|].
    intros c Hc%rstrip_first_char. by apply Hr0. }
  rewrite index_sku_key_unfold. unfold Py.strip.
  rewrite (lstrip_id _ (z +:+ r)) by done.
  rewrite rstrip_app_keep by done.
  rewrite lower_app, lower_zeros by done.
  rewrite lstrip_app_all by done.
  rewrite lstrip_id by done.
  rewrite decide_False; [done|]. by rewrite lower_eq_nil.
Qed.

(** ** Claims on the normalised key *)

(** C5.  The key computed at indexing time, and the key computed by
    [lookup_sku], is exactly the one the specification describes: the raw
    SKU with surrounding white space trimmed, lower-cased, and its leading
    zero characters stripped, except that when nothing is left the trimmed
    lower-case string, zeros included, is the key. *)
Theorem normalized_key_meets_spec (raw key : string) :
  (index_sku_key raw = key ↔ NormalizedSkuKey raw key)
  ∧ (lookup_sku_key raw = key ↔ NormalizedSkuKey raw key).
Proof.
  change (lookup_sku_key raw) with (index_sku_key raw).
  assert (index_sku_key raw = key ↔ NormalizedSkuKey raw key) as H; [|done].
  split.
  - intros <-. exists (Py.strip raw), (Py.lstrip (Py.is_char "0") (Py.lower (Py.strip raw))).
    split; [apply strip_trimmed|]. split; [|apply index_sku_key_unfold].
    destruct (lstrip_split (Py.is_char "0") (Py.lower (Py.strip raw))) as [z [Ht Hz]].
    exists z. split; [done|]. split; [by rewrite Hz|apply lstrip_head_not].
  - intros (t & k & Htrim%trimmed_strip & (z & Ht & Hz%Is_true_true & Hk) & ->).
    rewrite index_sku_key_unfold, Htrim, Ht.
    by rewrite lstrip_app_all, lstrip_id.
Qed.

(** C10 as stated fails: the key of ["0 1"] is [" 1"], whose own key is ["1"]. *)
Lemma index_sku_key_not_idempotent :
  ¬ (∀ s, index_sku_key (index_sku_key s) = index_sku_key s).
Proof. intros H. specialize (H "0 1"). vm_compute in H. discriminate. Qed.

(** C10, amended.  Normalising a key again leaves it unchanged exactly
    when the key does not begin with white space, that is, unless white
    space directly follows the leading zeros of the trimmed SKU. *)
Theorem index_sku_key_idempotent_iff (s : string) :
  index_sku_key (index_sku_key s) = index_sku_key s
  ↔ head_not Py.isspace (index_sku_key s).
Proof.
  split; [|apply index_sku_key_idem_if].
  intros Heq c Hc. destruct (Py.isspace c) eqn:Hsp; [|done].
  pose proof (index_sku_key_shrinks _ _ Hc Hsp) as Hlt.
  rewrite Heq in Hlt. lia.
Qed.

(** C2 as stated fails on an all-zero SKU: ["0"] keeps its zero, while
    its leading zeros removed leave [""], whose key is [""]. *)
Lemma key_of_stripped_zeros_differs :
  ¬ (∀ s, index_sku_key s = index_sku_key (stripLeadingZeros s)).
Proof. intros H. specialize (H "0"). vm_compute in H. discriminate. Qed.

(** C2, amended.  A raw SKU and the same SKU with its leading zeros
    removed have the same key exactly when the SKU has no leading zero,
    or what follows its leading zeros is non-empty and does not begin with
    white space. *)
Theorem key_of_stripped_zeros_iff (s : string) :
  index_sku_key s = index_sku_key (stripLeadingZeros s)
  ↔ stripLeadingZeros s = s
    ∨ (stripLeadingZeros s ≠ "" ∧ head_not Py.isspace (stripLeadingZeros s)).
Proof.
  unfold stripLeadingZeros.
  destruct (lstrip_split (Py.is_char "0") s) as [z [Hs Hz]].
  pose proof (lstrip_head_not (Py.is_char "0") s) as Hr0.
  remember (Py.lstrip (Py.is_char "0") s) as r eqn:Er. clear Er.
  split.
  - intros Heq. destruct (decide (r = s)) as [|Hrs]; [by left|right].
    assert (z ≠ "") as Hzne by (intros ->; by rewrite app_nil_l' in Hs).
    assert (head_not Py.isspace (z +:+ r)) as Hh.
    { intros c. rewrite first_char_app by done. by apply zeros_head_not_space. }
    destruct (decide (Py.rstrip Py.isspace r = "")) as [Hr1|Hr1].
    + (* the remainder is white space only: the key of [s] is its zeros *)
      exfalso. apply Hzne.
      destruct (rstrip_split Py.isspace r) as [w [Hr Hw]].
      rewrite Hr1, app_nil_l' in Hr. rewrite <- Hr in Hw.
      assert (index_sku_key s = z) as Hks.
      { rewrite Hs, index_sku_key_unfold. unfold Py.strip.
        rewrite (lstrip_id _ (z +:+ r)) by done.
        rewrite rstrip_app_all by done.
        rewrite rstrip_id by (by apply zeros_end_not_space).
        rewrite lower_zeros by done. by rewrite lstrip_all. }
      pose proof (index_sku_key_length r) as Hlen.
      rewrite strip_alt, Hr1 in Hlen. simpl in Hlen.
      rewrite <- Heq, Hks in Hlen. destruct z; [done|simpl in Hlen; lia].
    + split; [by intros Hr; rewrite Hr in Hr1|].
      intros c Hc. destruct (Py.isspace c) eqn:Hsp; [exfalso|done].
      rewrite Hs in Heq at 1.
      rewrite index_sku_key_zeros_app in Heq by done.
      pose proof (index_sku_key_length r) as Hlen.
      rewrite <- Heq, lower_length, strip_alt in Hlen.
      destruct (Py.rstrip Py.isspace r) as [|c' r1] eqn:Hr1'; [done|].
      assert (c' = c) as ->.
      { pose proof (rstrip_first_char Py.isspace r c') as Hf.
        rewrite Hr1' in Hf. specialize (Hf eq_refl). congruence. }
      pose proof (lstrip_length_lt Py.isspace c r1 Hsp). lia.
  - intros [Hrs|[Hne Hsp]]; [by rewrite Hrs|].
    assert (Py.rstrip Py.isspace r ≠ "") as Hr1.
    { destruct r as [|c r'] eqn:Hr; [done|].
      intros Hnil.
      pose proof (rstrip_keeps_head Py.isspace (String c r') c eq_refl) as Hk.
      rewrite Hnil in Hk. by specialize (Hk (Hsp c eq_refl)). }
    rewrite Hs at 1. rewrite index_sku_key_zeros_app; [|done| |done..].
    + rewrite <- (app_nil_l' r) at 2.
      by rewrite index_sku_key_zeros_app.
    + destruct z as [|c z]; [done|].
      intros x. rewrite first_char_app by done.
      by apply zeros_head_not_space.
Qed.

Example key_073302_73302 : index_sku_key "073302" = index_sku_key "73302".
Proof. reflexivity. Qed.

(** ** Catalog insertion *)

Lemma set_catalog_id self : set_catalog self (catalog self) = self.
Proof. by destruct self. Qed.

Lemma insert_all_app c a b : insert_all (insert_all c a) b = insert_all c (a ++ b).
Proof. unfold insert_all. by rewrite foldl_app. Qed.

Lemma insert_all_lookup_notin c (l : list entry) k :
  k ∉ l.*1 → insert_all c l !! k = c !! k.
Proof.
  revert c. induction l as [|[k' r'] l IH]; intros c; [done|].
  rewrite fmap_cons, not_elem_of_cons. simpl. intros [Hne Hnotin].
  change (insert_all (<[k' := r']> c) l !! k = c !! k).
  rewrite IH by done. by rewrite lookup_insert_ne.
Qed.

(** Last write wins. *)
Lemma insert_all_lookup_last c (l1 l2 : list entry) k r :
  k ∉ l2.*1 → insert_all c (l1 ++ (k, r) :: l2) !! k = Some r.
Proof.
  intros Hnotin. rewrite <- insert_all_app.
  change (insert_all (<[k := r]> (insert_all c l1)) l2 !! k = Some r).
  rewrite insert_all_lookup_notin by done. apply lookup_insert_eq.
Qed.

Lemma insert_all_lookup_Some c (l : list entry) k r :
  insert_all c l !! k = Some r → (k, r) ∈ l ∨ c !! k = Some r.
Proof.
  revert c. induction l as [|[k' r'] l IH]; intros c; [by right|].
  change (insert_all (<[k' := r']> c) l !! k = Some r →
          (k, r) ∈ (k', r') :: l ∨ c !! k = Some r).
  intros [Hin|Hc]%IH; [left; apply elem_of_cons; by right|].
  destruct (decide (k' = k)) as [->|Hne].
  - rewrite lookup_insert_eq in Hc. simplify_eq. left. apply elem_of_cons. by left.
  - rewrite lookup_insert_ne in Hc by done. by right.
Qed.


(** ** What [_index_product] and a page record *)


Lemma index_variants_spec self p main_image vs :
  ShopifyCatalogIndexer.index_variants self p main_image vs =
    (set_catalog self
       (insert_all (catalog self)
          (omap (variant_entry self p main_image) (leading_dicts vs))),
     if forallb is_dict vs then Ok () else Raise AttributeError).
Proof.
  revert self. induction vs as [|variant vs IH]; intros self.
  - simpl. by rewrite set_catalog_id.
  - destruct variant as [| | | | |v]; simpl; try by rewrite set_catalog_id.
    destruct (PyJson.truthy (PyJson.get v "sku")) eqn:Hsku; simpl; by rewrite IH.
Qed.

Lemma main_image_ok images :
  is_ok (ShopifyCatalogIndexer.main_image_of images) = images_ok images.
Proof.
  unfold ShopifyCatalogIndexer.main_image_of, images_ok.
  destruct images as [|[]|n|[|c s]|[|[] l]|[|kv kvs]]; simpl; try done.
  by destruct (n =? 0)%Z.
Qed.

Lemma index_product_spec self product :
  ∃ r, ShopifyCatalogIndexer._index_product self product =
         (set_catalog self (insert_all (catalog self) (product_entries self product)), r)
       ∧ is_ok r = product_ok product.
Proof.
  destruct product as [| | | | |p]; simpl;
    try (eexists; split; [by rewrite set_catalog_id|done]).
  unfold ShopifyCatalogIndexer._index_product, product_ok, variants_ok. simpl.
  rewrite <- main_image_ok.
  destruct (ShopifyCatalogIndexer.main_image_of _) as [main_image|e]; simpl;
    [|eexists; split; [by rewrite set_catalog_id|done]].
  destruct (PyJson.iter _) as [vs|e]; simpl;
    [|eexists; split; [by rewrite set_catalog_id|done]].
  rewrite index_variants_spec. eexists; split; [done|].
  by destruct (forallb is_dict vs).
Qed.

Lemma product_entries_set_catalog self c p :
  product_entries (set_catalog self c) p = product_entries self p.
Proof. reflexivity. Qed.

Lemma products_entries_set_catalog self c ps :
  products_entries (set_catalog self c) ps = products_entries self ps.
Proof.
  induction ps as [|p ps IH]; [done|]. simpl.
  by rewrite IH, product_entries_set_catalog.
Qed.

Lemma index_products_spec self ps :
  ∃ r, ShopifyCatalogIndexer.index_products self ps =
         (set_catalog self (insert_all (catalog self) (products_entries self ps)), r)
       ∧ is_ok r = forallb product_ok ps.
Proof.
  revert self. induction ps as [|p ps IH]; intros self.
  - exists (Ok ()). simpl. by rewrite set_catalog_id.
  - simpl. destruct (index_product_spec self p) as (r & -> & Hr).
    destruct r as [[]|e]; simpl in Hr; rewrite <- Hr; simpl.
    + destruct (IH (set_catalog self
                      (insert_all (catalog self) (product_entries self p))))
        as (r' & -> & Hr').
      exists r'. split; [|done]. simpl.
      by rewrite insert_all_app, products_entries_set_catalog.
    + exists (Raise e). by rewrite app_nil_r.
Qed.


(** ** One pass of the loop *)

Lemma fetch_page_spec client url self :
  ∃ r, ShopifyCatalogIndexer.fetch_page client url self =
         (set_catalog self (insert_all (catalog self) (page_entries self (client url))), r)
       ∧ match classify (client url) with
         | PageGood ps =>
             r = Ok true ∧ page_entries self (client url) = products_entries self ps
         | PageEmpty => r = Ok false ∧ page_entries self (client url) = []
         | PageFailed => r ≠ Ok true
         end.
Proof.
  unfold ShopifyCatalogIndexer.fetch_page, classify, page_entries.
  destruct (client url) as [|status_code [data|]]; simpl;
    try (eexists; split; [by rewrite set_catalog_id|done]).
  - destruct data as [| | | | |d]; simpl;
      destruct (status_code =? 200)%Z; simpl;
      try (eexists; split; [by rewrite set_catalog_id|done]).
    destruct (PyJson.truthy _); simpl;
      [|eexists; split; [by rewrite set_catalog_id|done]].
    destruct (PyJson.iter _) as [ps|e]; simpl;
      [|eexists; split; [by rewrite set_catalog_id|done]].
    destruct (index_products_spec self ps) as (r & -> & Hr). rewrite <- Hr.
    destruct r as [[]|e]; simpl; eexists; (split; [done|]); done.
  - destruct (status_code =? 200)%Z; simpl;
      eexists; (split; [by rewrite set_catalog_id|done]).
Qed.

(** [classify] in plain terms. *)
Lemma classify_empty_iff o :
  classify o = PageEmpty ↔
    ∃ d, o = Response 200 (Some (JDict d))
         ∧ PyJson.truthy (PyJson.get_or d "products" (JList [])) = false.
Proof.
  split.
  - unfold classify. destruct o as [|status_code [[| | | | |d]|]]; try done.
    destruct (status_code =? 200)%Z eqn:Hst; simpl; [|done].
    apply Z.eqb_eq in Hst as ->.
    destruct (PyJson.truthy _) eqn:Ht; simpl; [|intros _; by exists d].
    destruct (PyJson.iter _); [destruct (forallb _ _)|]; done.
  - intros (d & -> & Ht). unfold classify. simpl. by rewrite Ht.
Qed.

Lemma classify_good_iff o ps :
  classify o = PageGood ps ↔
    ∃ d, o = Response 200 (Some (JDict d))
         ∧ PyJson.truthy (PyJson.get_or d "products" (JList [])) = true
         ∧ PyJson.iter (PyJson.get_or d "products" (JList [])) = Ok ps
         ∧ forallb product_ok ps = true.
Proof.
  split.
  - unfold classify. destruct o as [|status_code [[| | | | |d]|]]; try done.
    destruct (status_code =? 200)%Z eqn:Hst; simpl; [|done].
    apply Z.eqb_eq in Hst as ->.
    destruct (PyJson.truthy (PyJson.get_or d "products" (JList []))) eqn:Ht;
      simpl; [|done].
    destruct (PyJson.iter (PyJson.get_or d "products" (JList []))) as [ps'|] eqn:Hi;
      [|done].
    destruct (forallb product_ok ps') eqn:Hok; [|done].
    intros [= <-]. by exists d.
  - intros (d & -> & Ht & Hi & Hok). unfold classify. simpl.
    by rewrite Ht, Hi, Hok.
Qed.

Example str_of_nested_list :
  PyJson.str (JList [JInt 1; JStr "a"; JNull; JBool true; JDict [("k", JList [])]])
  = "[1, 'a', None, True, {'k': []}]".
Proof. by vm_compute. Qed.

Example missing_products_key_is_empty : classify (Response 200 (Some (JDict []))) = PageEmpty.
Proof. reflexivity. Qed.


(** ** The loop *)

Lemma page_entries_set_catalog self c o :
  page_entries (set_catalog self c) o = page_entries self o.
Proof.
  unfold page_entries. repeat case_match; try done.
  apply products_entries_set_catalog.
Qed.

Lemma feed_entries_cons self ps pages :
  feed_entries self (ps :: pages) = products_entries self ps ++ feed_entries self pages.
Proof. reflexivity. Qed.

Lemma feed_entries_set_catalog self c pages :
  feed_entries (set_catalog self c) pages = feed_entries self pages.
Proof.
  induction pages as [|ps pages IH]; [done|].
  by rewrite !feed_entries_cons, IH, products_entries_set_catalog.
Qed.

Lemma nth_url_set_catalog self c limit i :
  nth_url (set_catalog self c) limit i = nth_url self limit i.
Proof. reflexivity. Qed.

Lemma loop_events_set_catalog self c limit delay i k :
  loop_events (set_catalog self c) limit delay i k = loop_events self limit delay i k.
Proof. revert i. induction k as [|k IH]; intros i; simpl; [done|]. by rewrite IH. Qed.

Lemma get_urls_loop_events self limit delay i k :
  get_urls (loop_events self limit delay i k) = nth_url self limit <$> seq i (S k).
Proof.
  revert i. induction k as [|k IH]; intros i; [done|].
  change (nth_url self limit i :: get_urls (loop_events self limit delay (S i) k)
          = nth_url self limit i :: (nth_url self limit <$> seq (S i) (S k))).
  by rewrite IH.
Qed.

(** The loop over a run of good pages, closed by a page that is not. *)
Lemma fetch_loop_spec client limit delay pages :
  ∀ self i total tr fuel,
    (∀ j ps, pages !! j = Some ps →
       classify (client (nth_url self limit (i + j))) = PageGood ps) →
    (∀ ps, classify (client (nth_url self limit (i + length pages))) ≠ PageGood ps) →
    length pages < fuel →
    ShopifyCatalogIndexer.fetch_loop fuel client limit delay self (Z.of_nat (S i)) total tr =
      Some (set_catalog self
              (insert_all (catalog self)
                 (feed_entries self pages
                    ++ page_entries self (client (nth_url self limit (i + length pages))))),
            match pages with
            | [] => total
            | _ => size (insert_all (catalog self) (feed_entries self pages))
            end,
            tr ++ loop_events self limit delay i (length pages)).
Proof.
  induction pages as [|ps pages IH]; intros self i total tr fuel Hgood Hlast Hfuel;
    (destruct fuel as [|fuel]; [simpl in Hfuel; lia|]).
  - simpl length in *. rewrite Nat.add_0_r in *.
    simpl ShopifyCatalogIndexer.fetch_loop. fold (nth_url self limit i).
    destruct (fetch_page_spec client (nth_url self limit i) self) as (r & -> & Hr).
    destruct (classify _) eqn:Hc.
    + by destruct (Hlast products).
    + by destruct Hr as [-> _].
    + by destruct r as [[]|].
  - simpl ShopifyCatalogIndexer.fetch_loop. fold (nth_url self limit i).
    pose proof (Hgood 0 ps eq_refl) as H0. rewrite Nat.add_0_r in H0.
    destruct (fetch_page_spec client (nth_url self limit i) self) as (r & -> & Hr).
    rewrite H0 in Hr. destruct Hr as [-> Hpe]. rewrite Hpe.
    replace (Z.of_nat (S i) + 1)%Z with (Z.of_nat (S (S i))) by lia.
    rewrite (IH _ (S i)); simpl length in *; [| | |lia].
    + rewrite page_entries_set_catalog, feed_entries_set_catalog,
        loop_events_set_catalog, nth_url_set_catalog.
      replace (S i + length pages) with (i + S (length pages)) by lia.
      rewrite feed_entries_cons. simpl catalog.
      rewrite insert_all_app, <- !(assoc_L (++)).
      apply f_equal. apply (f_equal2 pair); [apply (f_equal2 pair)|]; [done| |done].
      destruct pages; [by rewrite app_nil_r|]. by rewrite insert_all_app.
    + intros j ps' Hj. replace (S i + j) with (i + S j) by lia. by apply Hgood.
    + intros ps'. replace (S i + length pages) with (i + S (length pages)) by lia.
      apply Hlast.
Qed.

(** [fetch_catalog] on a fresh indexer, over a run of good pages closed
    by a page that is not: it returns, and this is what it returns. *)
Lemma fetch_catalog_spec client url limit delay pages fuel :
  let self := ShopifyCatalogIndexer.init url in
  serves client self limit pages →
  (∀ ps, classify (client (nth_url self limit (length pages))) ≠ PageGood ps) →
  length pages < fuel →
  ShopifyCatalogIndexer.fetch_catalog fuel client self limit delay =
    Some (set_indexed
            (set_catalog self
               (insert_all ∅
                  (feed_entries self pages
                     ++ page_entries self (client (nth_url self limit (length pages))))))
            true,
          size (insert_all ∅ (feed_entries self pages)),
          loop_events self limit delay 0 (length pages)).
Proof.
  intros self Hserves Hlast Hfuel. unfold ShopifyCatalogIndexer.fetch_catalog.
  change 1%Z with (Z.of_nat 1).
  rewrite (fetch_loop_spec client limit delay pages self 0 0 [] fuel); [|done..].
  simpl. by destruct pages.
Qed.




(** ** Claims on [fetch_catalog] and [lookup_sku] *)

Lemma scenario_serves :
  serves scenario_client (ShopifyCatalogIndexer.init scenario_url) 250 scenario_pages.
Proof. intros [|[|i]] ps [= <-]; by vm_compute. Qed.



Example scenario_count :
  (λ r, r.1.2) <$> ShopifyCatalogIndexer.fetch_catalog 3 scenario_client
    (ShopifyCatalogIndexer.init scenario_url) 250 100 = Some 2.
Proof. by vm_compute. Qed.

Example empty_feed_count :
  (λ r, (r.1.2, length r.2, size (catalog r.1.1))) <$>
    ShopifyCatalogIndexer.fetch_catalog 1 (λ _, Response 200 (Some (JDict [])))
      (ShopifyCatalogIndexer.init scenario_url) 250 100 = Some (0, 1, 0).
Proof. by vm_compute. Qed.

(** When page [p] breaks off at a malformed product, the variants of page
    [p] indexed before it stay in the catalog: the catalog a run leaves is
    not, for every feed, the one accumulated from pages [1..p-1]. *)
Lemma failed_page_leaves_partial_entries :
  ¬ (∀ (client : http_client) (url : string) (limit delay : Z)
       (pages : list (list json)) (fuel : nat),
       let self := ShopifyCatalogIndexer.init url in
       serves client self limit pages →
       classify (client (nth_url self limit (length pages))) = PageFailed →
       length pages < fuel →
       ∃ self' total trace,
         ShopifyCatalogIndexer.fetch_catalog fuel client self limit delay
           = Some (self', total, trace)
         ∧ catalog self' = insert_all ∅ (feed_entries self pages)).
Proof.
  intros H.
  destruct (H broken_client scenario_url 250%Z 100%Z [] 1)
    as (self' & total & trace & Hrun & Hcat).
  - by intros i ps.
  - by vm_compute.
  - simpl. lia.
  - vm_compute in Hrun. injection Hrun as Hself _ _. subst self'.
    apply (f_equal (λ m : gmap string variant_data, m !! "abc-1")) in Hcat.
    vm_compute in Hcat. discriminate.
Qed.

(** The run of [fetch_catalog] when page [p] fails (any response other
    than a page of well-formed products or an empty page): no page after
    [p] is requested, nothing is raised and the call returns.  The handler
    of lines 48-50 leaves the loop without passing line 44, so the catalog
    keeps what page [p] recorded before it failed while the count returned
    is the one taken after page [p-1]; page [p] records nothing unless it
    is a decoded JSON object received with status 200. *)
Lemma fetch_catalog_stops_at_failed_page (client : http_client) (url : string)
    (limit delay : Z) (pages : list (list json)) (fuel : nat) :
  let self := ShopifyCatalogIndexer.init url in
  let failed := client (nth_url self limit (length pages)) in
  serves client self limit pages →
  classify failed = PageFailed →
  length pages < fuel →
  ∃ self' total trace,
    ShopifyCatalogIndexer.fetch_catalog fuel client self limit delay
      = Some (self', total, trace)
    ∧ get_urls trace = nth_url self limit <$> seq 0 (S (length pages))
    ∧ total = size (insert_all ∅ (feed_entries self pages))
    ∧ catalog self'
      = insert_all (insert_all ∅ (feed_entries self pages)) (page_entries self failed)
    ∧ ((∀ status d, failed ≠ Response status (Some (JDict d)))
       ∨ (∃ status body, failed = Response status body ∧ status ≠ 200%Z) →
       catalog self' = insert_all ∅ (feed_entries self pages))
    ∧ indexed self' = true.
Proof.
  intros self failed Hserves Hlast Hfuel.
  pose proof (fetch_catalog_spec client url limit delay pages fuel Hserves) as Hrun.
  fold self in Hrun. fold failed in Hrun.
  rewrite Hrun; [|intros ps; by rewrite Hlast|done].
  eexists _, _, _. split; [done|]. simpl.
  split; [apply get_urls_loop_events|]. split; [done|].
  split; [by rewrite insert_all_app|]. split; [|done].
  intros Hshape. replace (page_entries self failed) with (@nil entry);
    [by rewrite app_nil_r|].
  unfold page_entries. destruct Hshape as [Hno|(status & body & -> & Hne)].
  - destruct failed as [|status [[| | | | |d]|]]; try done. by destruct (Hno status d).
  - destruct body as [[| | | | |d]|]; try done.
    by rewrite (proj2 (Z.eqb_neq status 200) Hne).
Qed.

Lemma throttled_serves :
  serves throttled_client (ShopifyCatalogIndexer.init scenario_url) 250 scenario_pages.
Proof. intros [|[|i]] ps [= <-]; by vm_compute. Qed.

(** Two good pages, then HTTP 429 on page 3. *)
Lemma fetch_catalog_stops_at_refused_page :
  serves throttled_client (ShopifyCatalogIndexer.init scenario_url) 250 scenario_pages
  ∧ classify (throttled_client
                (nth_url (ShopifyCatalogIndexer.init scenario_url) 250 2)) = PageFailed
  ∧ ∃ self' total trace,
      ShopifyCatalogIndexer.fetch_catalog 3 throttled_client
        (ShopifyCatalogIndexer.init scenario_url) 250 100 = Some (self', total, trace)
      ∧ length (get_urls trace) = 3
      ∧ total = 2
      ∧ catalog self'
        = insert_all ∅ (feed_entries (ShopifyCatalogIndexer.init scenario_url) scenario_pages).
Proof.
  split; [exact throttled_serves|]. split; [by vm_compute|].
  destruct (fetch_catalog_stops_at_failed_page throttled_client scenario_url 250 100
              scenario_pages 3 throttled_serves)
    as (self' & total & trace & Hrun & Hurls & Htotal & _ & Hcat & _).
  - by vm_compute.
  - simpl. lia.
  - exists self', total, trace. split; [exact Hrun|].
    split; [rewrite Hurls; by vm_compute|]. split; [rewrite Htotal; by vm_compute|].
    apply Hcat. right. exists 429%Z, None. split; [by vm_compute|done].
Qed.

(** C4.  On the path of the exception handler the code departs from
    what the method's docstring promises ("Returns the number of SKUs
    indexed") and from every other exit of the loop, where the count is
    the size of the catalog.  When page 1 holds a well-formed product
    with SKU ["ABC-1"] followed by a value that is not an object,
    [fetch_catalog] on a new indexer requests page 1 only, raises nothing
    and returns, but it returns the count 0 while the catalog holds the
    record of ["abc-1"]: neither is the catalog the one accumulated
    before the failed page (empty), nor does the count tell the catalog's
    size.  When page 2 fails after a product whose key page 1 had
    already recorded, the call returns count 1 after two requests and the
    record page 1 stored under that key is replaced by page 2's. *)
Theorem failed_page_count_lags_catalog :
  let self := ShopifyCatalogIndexer.init scenario_url in
  let observe (r : indexer * nat * list event) :=
    (r.1.2, size (catalog r.1.1), vd_handle <$> catalog r.1.1 !! "abc-1",
     indexed r.1.1, get_urls r.2) in
  classify (broken_client (nth_url self 250 0)) = PageFailed
  ∧ observe <$> ShopifyCatalogIndexer.fetch_catalog 5 broken_client self 250 100
    = Some (0, 1, Some (JStr "widget"), true,
            ["https://shop.example/products.json?limit=250&page=1"])
  ∧ insert_all ∅ (feed_entries self []) = (∅ : gmap string variant_data)
  ∧ serves overwriting_client self 250 [[simple_product "widget" "Widget" "ABC-1"]]
  ∧ classify (overwriting_client (nth_url self 250 1)) = PageFailed
  ∧ observe <$> ShopifyCatalogIndexer.fetch_catalog 5 overwriting_client self 250 100
    = Some (1, 1, Some (JStr "other"), true,
            ["https://shop.example/products.json?limit=250&page=1";
             "https://shop.example/products.json?limit=250&page=2"])
  ∧ vd_handle <$>
      insert_all ∅ (feed_entries self [[simple_product "widget" "Widget" "ABC-1"]])
        !! "abc-1"
    = Some (JStr "widget").
Proof.
  intros self observe.
  split; [by vm_compute|]. split; [by vm_compute|]. split; [by vm_compute|].
  split; [intros [|i] ps [= <-]; by vm_compute|].
  split; [by vm_compute|]. split; by vm_compute.
Qed.

(** C9.  After [fetch_catalog], a key maps to the record of the last
    variant with that key in processing order (pages, then products, then
    variants): an entry followed by no entry of the same key is the one
    the catalog holds, whatever was stored under the key before it. *)
Theorem catalog_last_write_wins (client : http_client) (url : string)
    (limit delay : Z) (pages : list (list json)) (fuel : nat) :
  let self := ShopifyCatalogIndexer.init url in
  let processed :=
    feed_entries self pages
      ++ page_entries self (client (nth_url self limit (length pages))) in
  serves client self limit pages →
  (∀ ps, classify (client (nth_url self limit (length pages))) ≠ PageGood ps) →
  length pages < fuel →
  ∃ self' total trace,
    ShopifyCatalogIndexer.fetch_catalog fuel client self limit delay
      = Some (self', total, trace)
    ∧ ∀ earlier key r later,
        processed = earlier ++ (key, r) :: later →
        key ∉ later.*1 →
        catalog self' !! key = Some r.
Proof.
  intros self processed Hserves Hlast Hfuel.
  pose proof (fetch_catalog_spec client url limit delay pages fuel Hserves Hlast Hfuel)
    as Hrun.
  eexists _, _, _. split; [exact Hrun|]. simpl.
  intros earlier key r later Hsplit Hnotin. fold self. fold processed.
  rewrite Hsplit. by apply insert_all_lookup_last.
Qed.

Lemma collision_serves :
  serves collision_client (ShopifyCatalogIndexer.init scenario_url) 250
    [collision_products].
Proof. intros [|i] ps [= <-]; by vm_compute. Qed.

(** SKUs ["073302"] and ["73302"] on one page: the second one stays. *)
Lemma catalog_last_write_wins_witness :
  index_sku_key "073302" = index_sku_key "73302"
  ∧ ∃ self' total trace,
      ShopifyCatalogIndexer.fetch_catalog 2 collision_client
        (ShopifyCatalogIndexer.init scenario_url) 250 100 = Some (self', total, trace)
      ∧ vd_title <$> catalog self' !! "73302" = Some (JStr "Second").
Proof.
  split; [reflexivity|].
  destruct (catalog_last_write_wins collision_client scenario_url 250 100
              [collision_products] 2 collision_serves)
    as (self' & total & trace & Hrun & Hlast).
  - intros ps. by vm_compute.
  - simpl. lia.
  - exists self', total, trace. split; [exact Hrun|].
    let es := eval vm_compute in
      (feed_entries (ShopifyCatalogIndexer.init scenario_url) [collision_products]) in
    match es with
    | [?e1; (?k, ?r)] => pose proof (Hlast [e1] k r []) as H
    end.
    rewrite H; [by vm_compute|by vm_compute|apply not_elem_of_nil].
Defined.

(** C6.  Once [fetch_catalog] has returned, [lookup_sku] computes the key
    of the query exactly as indexing computed the key of a SKU and returns
    what the catalog holds under it: the record of the variant indexed
    under that key (the last one processed with it), for every query with
    that key, and nothing for a query whose key no processed SKU has. *)
Theorem lookup_sku_after_fetch (client : http_client) (url : string)
    (limit delay : Z) (pages : list (list json)) (fuel : nat) :
  let self := ShopifyCatalogIndexer.init url in
  let processed :=
    feed_entries self pages
      ++ page_entries self (client (nth_url self limit (length pages))) in
  serves client self limit pages →
  (∀ ps, classify (client (nth_url self limit (length pages))) ≠ PageGood ps) →
  length pages < fuel →
  ∃ self' total trace,
    ShopifyCatalogIndexer.fetch_catalog fuel client self limit delay
      = Some (self', total, trace)
    ∧ (∀ s, lookup_sku_key s = index_sku_key s)
    ∧ (∀ s, ShopifyCatalogIndexer.lookup_sku self' s = catalog self' !! index_sku_key s)
    ∧ (∀ key r s, catalog self' !! key = Some r → index_sku_key s = key →
         ShopifyCatalogIndexer.lookup_sku self' s = Some r)
    ∧ (∀ earlier key r later s,
         processed = earlier ++ (key, r) :: later → key ∉ later.*1 →
         index_sku_key s = key →
         ShopifyCatalogIndexer.lookup_sku self' s = Some r)
    ∧ (∀ s, index_sku_key s ∉ processed.*1 →
         ShopifyCatalogIndexer.lookup_sku self' s = None).
Proof.
  intros self processed Hserves Hlast Hfuel.
  pose proof (fetch_catalog_spec client url limit delay pages fuel Hserves Hlast Hfuel)
    as Hrun.
  eexists _, _, _. split; [exact Hrun|]. fold self. fold processed.
  split; [done|]. split; [done|].
  unfold ShopifyCatalogIndexer.lookup_sku. simpl.
  change lookup_sku_key with index_sku_key.
  split; [|split].
  - by intros key r s Hr ->.
  - intros earlier key r later s Hsplit Hnotin ->.
    rewrite Hsplit. by apply insert_all_lookup_last.
  - intros s Hnotin. by rewrite insert_all_lookup_notin.
Qed.

(** The end-to-end scenario of the specification. *)
Lemma lookup_sku_after_fetch_witness :
  ∃ self' total trace,
    ShopifyCatalogIndexer.fetch_catalog 3 scenario_client
      (ShopifyCatalogIndexer.init scenario_url) 250 100 = Some (self', total, trace)
    ∧ ShopifyCatalogIndexer.lookup_sku self' "73302"
      = ShopifyCatalogIndexer.lookup_sku self' "073302"
    ∧ vd_sku <$> ShopifyCatalogIndexer.lookup_sku self' "073302" = Some (JStr "073302")
    ∧ vd_sku <$> ShopifyCatalogIndexer.lookup_sku self' "ABC-1" = Some (JStr "ABC-1")
    ∧ ShopifyCatalogIndexer.lookup_sku self' "missing" = None.
Proof.
  destruct (lookup_sku_after_fetch scenario_client scenario_url 250 100
              scenario_pages 3 scenario_serves)
    as (self' & total & trace & Hrun & _ & Hget & _ & Hhit & Hmiss).
  - intros ps. by vm_compute.
  - simpl. lia.
  - exists self', total, trace. split; [exact Hrun|].
    split; [rewrite !Hget; by vm_compute|].
    let es := eval vm_compute in
      (feed_entries (ShopifyCatalogIndexer.init scenario_url) scenario_pages) in
    match es with
    | [(?k1, ?r1); (?k2, ?r2)] =>
        pose proof (Hhit [] k1 r1 [(k2, r2)] "ABC-1") as H1;
        pose proof (Hhit [(k1, r1)] k2 r2 [] "073302") as H2;
        pose proof (Hmiss "missing") as H3
    end.
    split; [|split].
    + rewrite H2; [by vm_compute|by vm_compute|apply not_elem_of_nil|by vm_compute].
    + rewrite H1; [by vm_compute|by vm_compute| |by vm_compute].
      vm_compute. by intros [[=]|?%elem_of_nil]%elem_of_cons.
    + apply H3. vm_compute.
      by intros [[=]|[[=]|?%elem_of_nil]%elem_of_cons]%elem_of_cons.
Defined.

(** C7.  On an indexer on which [fetch_catalog] was never called
    [lookup_sku] returns [None] for every SKU, and raises nothing: it is a
    total function; this holds as well after products were indexed by
    direct calls of [_index_product]. *)
Theorem lookup_sku_before_fetch (url s : string) :
  indexed (ShopifyCatalogIndexer.init url) = false
  ∧ ShopifyCatalogIndexer.lookup_sku (ShopifyCatalogIndexer.init url) s = None
  ∧ ∀ products,
      ShopifyCatalogIndexer.lookup_sku
        (ShopifyCatalogIndexer.index_products (ShopifyCatalogIndexer.init url) products).1 s
      = None.
Proof.
  split; [done|]. split; [done|]. intros products.
  destruct (index_products_spec (ShopifyCatalogIndexer.init url) products) as (r & -> & _).
  done.
Qed.

(** ** The input normaliser *)

Lemma lstrip_lower p s :
  (∀ c, p (Py.lower_char c) = p c) →
  Py.lstrip p (Py.lower s) = Py.lower (Py.lstrip p s).
Proof.
  intros Hp. induction s as [|c s IH]; [done|]. simpl. rewrite Hp.
  by destruct (p c).
Qed.

Lemma rstrip_lower p s :
  (∀ c, p (Py.lower_char c) = p c) →
  Py.rstrip p (Py.lower s) = Py.lower (Py.rstrip p s).
Proof.
  intros Hp. induction s as [|c s IH]; [done|].
  change (Py.lower (String c s)) with (String (Py.lower_char c) (Py.lower s)).
  rewrite !rstrip_cons, IH, Hp.
  destruct (decide (Py.rstrip p s = "")) as [Hnil|Hne].
  - rewrite Hnil. simpl. by destruct (p c).
  - rewrite decide_False by (by rewrite lower_eq_nil). done.
Qed.

Lemma strip_lower s : Py.strip (Py.lower s) = Py.lower (Py.strip s).
Proof.
  unfold Py.strip.
  by rewrite lstrip_lower, rstrip_lower by apply isspace_lower_char.
Qed.

Lemma strip_all_space s : all_chars Py.isspace s = true → Py.strip s = "".
Proof. intros Hs. unfold Py.strip. by rewrite lstrip_all. Qed.

Lemma strip_nil_iff s : Py.strip s = "" ↔ all_chars Py.isspace s = true.
Proof.
  split; [|apply strip_all_space]. intros Hs.
  destruct (strip_trimmed s) as (l & r & Heq & Hl & Hr & _).
  rewrite Hs, app_nil_l' in Heq. rewrite Heq, all_chars_app.
  apply Is_true_true in Hl, Hr. by rewrite Hl, Hr.
Qed.

Lemma strip_truthy s : Py.str_truthy (Py.strip s) = negb (all_chars Py.isspace s).
Proof.
  destruct (all_chars Py.isspace s) eqn:Hs.
  - by rewrite strip_all_space.
  - destruct (Py.strip s) eqn:Ht; [|done].
    apply strip_nil_iff in Ht. congruence.
Qed.

(** The code's reading of a field is the specification's. *)
Lemma field_stated r K k : App.field r K k = trimmed_field (stated_value r K k).
Proof.
  unfold App.field, App.get, stated_value, trimmed_field, populated, App.or_.
  destruct (mjoin (r !! K)) as [[|c s]|]; cbn [Py.str_truthy default].
  - destruct (mjoin (r !! k)) as [[|c' s']|]; cbn [Py.str_truthy default];
      try done; by rewrite strip_truthy; destruct (all_chars _ _).
  - by rewrite strip_truthy; destruct (all_chars _ _).
  - destruct (mjoin (r !! k)) as [[|c' s']|]; cbn [Py.str_truthy default];
      try done; by rewrite strip_truthy; destruct (all_chars _ _).
Qed.

Lemma trimmed_field_is_Some v : is_Some (trimmed_field v) ↔ populated v = true.
Proof.
  unfold trimmed_field. destruct v as [s|]; [|by split; [intros [? ?]|]].
  destruct (populated (Some s)); split; try done; by intros [? ?].
Qed.

Lemma trimmed_field_decide v : bool_decide (is_Some (trimmed_field v)) = populated v.
Proof.
  destruct (populated v) eqn:Hv.
  - apply bool_decide_eq_true. by apply trimmed_field_is_Some.
  - apply bool_decide_eq_false. rewrite trimmed_field_is_Some. congruence.
Qed.

Lemma item_of_row_stated r : item_of_row r = stated_item r.
Proof.
  unfold item_of_row, stated_item.
  by rewrite !field_stated, !trimmed_field_decide.
Qed.

Lemma items_of_rows_stated (rows : list row) : omap item_of_row rows = omap stated_item rows.
Proof.
  induction rows as [|r rows IH]; [done|].
  cbn [omap list_omap]. by rewrite item_of_row_stated, IH.
Qed.

Lemma stated_value_raw_row sku url :
  stated_value (raw_row sku url) "SKU" "sku" = sku
  ∧ stated_value (raw_row sku url) "URL" "url" = url.
Proof. unfold stated_value, raw_row. split; by simplify_map_eq. Qed.

Lemma stated_item_raw_row sku url :
  stated_item (raw_row sku url)
  = if populated sku || populated url
    then Some {| it_sku := trimmed_field sku; it_url := trimmed_field url |}
    else None.
Proof.
  unfold stated_item. destruct (stated_value_raw_row sku url) as [-> ->]. done.
Qed.

Lemma trimmed_field_key v :
  Py.lower (default "" (trimmed_field v)) = Py.strip (Py.lower (default "" v)).
Proof.
  destruct v as [s|]; [|done]. unfold trimmed_field, populated.
  rewrite strip_lower. destruct (all_chars Py.isspace s) eqn:Hs; [|done].
  cbn [negb default]. by rewrite strip_all_space.
Qed.

Lemma populated_lower v w :
  Py.lower (default "" v) = Py.lower (default "" w) → populated v = populated w.
Proof.
  intros Heq.
  assert (∀ u, populated u = Py.str_truthy (Py.strip (Py.lower (default "" u)))) as Hp.
  { intros [s|]; [|by vm_compute]. unfold populated.
    change (default "" (Some s)) with s.
    rewrite strip_lower, <- strip_truthy. by destruct (Py.strip s); simpl. }
  by rewrite !Hp, Heq.
Qed.

Lemma lower_default (v w : option string) :
  Py.lower <$> v = Py.lower <$> w → Py.lower (default "" v) = Py.lower (default "" w).
Proof. destruct v, w; simpl; congruence. Qed.

Lemma step_spec seen out r :
  App.step (seen, out) r =
    match item_of_row r with
    | None => (seen, out)
    | Some it =>
        if decide (item_key it ∈ seen) then (seen, out)
        else ({[item_key it]} ∪ seen, out ++ [it])
    end.
Proof.
  unfold App.step, item_of_row.
  destruct (App.field r "SKU" "sku") as [sku|], (App.field r "URL" "url") as [url|];
    simpl; try done;
    unfold item_key, App.key_of; simpl; by case_bool_decide; case_decide.
Qed.

Lemma foldl_step seen out rows :
  (foldl App.step (seen, out) rows).2 = out ++ fresh_items seen (omap item_of_row rows).
Proof.
  revert seen out. induction rows as [|r rows IH]; intros seen out.
  - simpl. by rewrite app_nil_r.
  - cbn [foldl omap list_omap]. rewrite step_spec.
    destruct (item_of_row r) as [it|]; [|by apply IH].
    cbn [fresh_items]. case_decide; [by apply IH|].
    rewrite IH. by rewrite <- (assoc_L (++)).
Qed.

Lemma fresh_items_filter seen l :
  fresh_items seen l = filter (λ y, item_key y ∉ seen) (first_occurrences l).
Proof.
  revert seen. induction l as [|x l IH]; intros seen; [done|].
  simpl. rewrite filter_cons. case_decide as Hx.
  - rewrite decide_False by (by intros ?). rewrite IH, list_filter_filter.
    apply list_filter_iff. intros y. split; [|by intros [? _]].
    intros Hy. split; [done|]. by intros Heq; rewrite Heq in Hy.
  - rewrite decide_True by done. f_equal. rewrite IH, list_filter_filter.
    apply list_filter_iff. intros y. rewrite not_elem_of_union, not_elem_of_singleton.
    tauto.
Qed.

Lemma normalise_rows_first_occurrences rows :
  App._normalise_rows rows = first_occurrences (omap item_of_row rows).
Proof.
  unfold App._normalise_rows. rewrite foldl_step, fresh_items_filter. simpl.
  induction (first_occurrences (omap item_of_row rows)) as [|x l IH]; [done|].
  rewrite filter_cons, decide_True by apply not_elem_of_empty. by rewrite IH.
Qed.

Lemma first_occurrences_sublist l : first_occurrences l `sublist_of` l.
Proof.
  induction l as [|x l IH]; [done|]. simpl. apply sublist_skip.
  etrans; [apply sublist_filter|done].
Qed.

Lemma first_occurrences_keys l it :
  it ∈ l → item_key it ∈ item_key <$> first_occurrences l.
Proof.
  induction l as [|x l IH]; [by intros ?%elem_of_nil|].
  intros [->|Hin]%elem_of_cons; cbn [first_occurrences];
    rewrite fmap_cons, elem_of_cons; [by left|].
  destruct (decide (item_key it = item_key x)) as [|Hne]; [by left|right].
  apply IH in Hin as (y & Hy & Hin)%list_elem_of_fmap.
  apply list_elem_of_fmap. exists y. split; [done|].
  apply list_elem_of_filter. split; [congruence|done].
Qed.

Lemma first_occurrences_NoDup l : NoDup (item_key <$> first_occurrences l).
Proof.
  induction l as [|x l IH]; cbn [first_occurrences]; [constructor|].
  rewrite fmap_cons. apply NoDup_cons. split.
  - intros (y & Hy & [Hne _]%list_elem_of_filter)%list_elem_of_fmap. congruence.
  - apply (sublist_NoDup _ (item_key <$> first_occurrences l)); [exact IH|].
    apply fmap_sublist, sublist_filter.
Qed.

Lemma first_occurrences_first l i it :
  l !! i = Some it →
  (∀ j it', j < i → l !! j = Some it' → item_key it' ≠ item_key it) →
  it ∈ first_occurrences l.
Proof.
  revert i. induction l as [|x l IH]; intros i; [done|].
  destruct i as [|i]; simpl; [intros [= ->] _; apply elem_of_cons; by left|].
  intros Hi Hfirst. apply elem_of_cons. right.
  apply list_elem_of_filter. split.
  - intros Heq. by apply (Hfirst 0 x); [lia| |].
  - apply (IH i); [done|]. intros j it' Hj Hl. apply (Hfirst (S j)); [lia|done].
Qed.

(** C3.  [_normalise_rows] returns, in input order, the first occurrence
    of each identity key (lower-cased sku, lower-cased url) among the
    items its rows stand for, an item being the trimmed sku and url of a
    row of which one is populated: the result is a subsequence of those
    items, no key occurs twice, an item preceded by no item of the same
    key is kept, and every key of the input is represented.  A row stands
    for no item exactly when its sku and url are both absent or white
    space only, and such a row changes nothing (the function is total:
    nothing is raised).  Two rows whose keys are equal yield the single
    item of the first; so do two rows whose sku and url differ only by
    case, which yield the trimmed sku and url of the first. *)
Theorem normalise_rows_keeps_first_occurrences (rows : list row) :
  let candidates := omap stated_item rows in
  App._normalise_rows rows = first_occurrences candidates
  ∧ App._normalise_rows rows `sublist_of` candidates
  ∧ NoDup (item_key <$> App._normalise_rows rows)
  ∧ (∀ i it, candidates !! i = Some it →
       (∀ j it', j < i → candidates !! j = Some it' → item_key it' ≠ item_key it) →
       it ∈ App._normalise_rows rows)
  ∧ (∀ it, it ∈ candidates → item_key it ∈ item_key <$> App._normalise_rows rows)
  ∧ (∀ r, stated_item r = None ↔
          populated (stated_value r "SKU" "sku") = false
          ∧ populated (stated_value r "URL" "url") = false)
  ∧ (∀ before r after, rows = before ++ r :: after →
       populated (stated_value r "SKU" "sku") = false →
       populated (stated_value r "URL" "url") = false →
       App._normalise_rows rows = App._normalise_rows (before ++ after))
  ∧ (∀ r1 r2 i1 i2, stated_item r1 = Some i1 → stated_item r2 = Some i2 →
       item_key i1 = item_key i2 → App._normalise_rows [r1; r2] = [i1])
  ∧ (∀ sku1 url1 sku2 url2 : option string,
       populated sku1 || populated url1 = true →
       Py.lower <$> sku1 = Py.lower <$> sku2 →
       Py.lower <$> url1 = Py.lower <$> url2 →
       App._normalise_rows [raw_row sku1 url1; raw_row sku2 url2]
       = [ {| it_sku := trimmed_field sku1; it_url := trimmed_field url1 |} ]).
Proof.
  intros candidates.
  assert (∀ rs, App._normalise_rows rs = first_occurrences (omap stated_item rs)) as Hrun.
  { intros rs. by rewrite normalise_rows_first_occurrences, items_of_rows_stated. }
  rewrite Hrun. fold candidates.
  split; [done|]. split; [apply first_occurrences_sublist|].
  split; [apply first_occurrences_NoDup|].
  split; [apply first_occurrences_first|]. split; [apply first_occurrences_keys|].
  assert (∀ r, stated_item r = None ↔
            populated (stated_value r "SKU" "sku") = false
            ∧ populated (stated_value r "URL" "url") = false) as Hnone.
  { intros r. unfold stated_item.
    destruct (populated (stated_value r "SKU" "sku")),
      (populated (stated_value r "URL" "url")); simpl; split; try done;
      by intros [? ?]. }
  split; [done|]. split; [|split].
  - intros before r after -> Hs Hu. rewrite Hrun.
    unfold candidates. rewrite !omap_app. cbn [omap list_omap].
    by rewrite (proj2 (Hnone r)).
  - intros r1 r2 i1 i2 H1 H2 Hkey. rewrite Hrun.
    cbn [omap list_omap]. rewrite H1, H2. cbn [first_occurrences].
    by rewrite filter_cons, decide_False by (by intros ?).
  - intros sku1 url1 sku2 url2 Hpop Hsku Hurl. rewrite Hrun.
    apply lower_default in Hsku, Hurl.
    cbn [omap list_omap]. rewrite !stated_item_raw_row.
    rewrite <- (populated_lower _ _ Hsku), <- (populated_lower _ _ Hurl), Hpop.
    cbn [first_occurrences].
    rewrite filter_cons, decide_False; [done|].
    intros Hne. apply Hne. unfold item_key. cbn [it_sku it_url].
    by rewrite !trimmed_field_key, Hsku, Hurl.
Qed.

Example normalise_rows_case_duplicates :
  App._normalise_rows
    [ {[ "sku" := Some "Abc-1" ]}; {[ "url" := Some "  " ]};
      {[ "SKU" := Some " ABC-1 " ]}; {[ "sku" := Some "x"; "url" := None ]} ]
  = [ {| it_sku := Some "Abc-1"; it_url := None |};
      {| it_sku := Some "x"; it_url := None |} ].
Proof. by vm_compute. Qed.

(** C8, where the code departs from its own comment ("Case-insensitive
    key lookup"): only the spellings ["SKU"]/["sku"] and ["URL"]/["url"]
    are read.  A row keyed ["Sku"] is treated as having no SKU and is
    dropped, while the same value under ["sku"] or ["SKU"] is kept. *)
Theorem normalise_rows_ignores_mixed_case_field (v : string) :
  App._normalise_rows [ {[ "Sku" := Some v ]} ] = []
  ∧ App._normalise_rows [ {[ "sKu" := Some v; "Url" := Some v ]} ] = []
  ∧ App._normalise_rows [ {[ "sku" := Some "ABC-123" ]} ]
    = [ {| it_sku := Some "ABC-123"; it_url := None |} ]
  ∧ App._normalise_rows [ {[ "SKU" := Some "ABC-123" ]} ]
    = [ {| it_sku := Some "ABC-123"; it_url := None |} ].
Proof. repeat split; by vm_compute. Qed.

(** * Further properties of the code *)

Local Set Warnings "-clear-no-such-hyp".

(** ** [__init__] and the normalised key *)

(** X1.  The indexer ignores trailing slashes of the site URL: the base
    URL never ends with a slash, a URL and the same URL with one more
    slash give the same indexer and the same page URLs, and a new indexer
    has an empty catalog and is not indexed. *)
Theorem init_ignores_trailing_slashes (url : string) :
  end_not (Py.is_char "/") (base_url (ShopifyCatalogIndexer.init url))
  ∧ ShopifyCatalogIndexer.init (url +:+ "/") = ShopifyCatalogIndexer.init url
  ∧ products_url (ShopifyCatalogIndexer.init url)
    = base_url (ShopifyCatalogIndexer.init url) +:+ "/products.json"
  ∧ (∀ limit page,
       ShopifyCatalogIndexer.page_url (ShopifyCatalogIndexer.init (url +:+ "/")) limit page
       = ShopifyCatalogIndexer.page_url (ShopifyCatalogIndexer.init url) limit page)
  ∧ catalog (ShopifyCatalogIndexer.init url) = ∅
  ∧ indexed (ShopifyCatalogIndexer.init url) = false.
Proof.
  assert (ShopifyCatalogIndexer.init (url +:+ "/") = ShopifyCatalogIndexer.init url) as Heq.
  { unfold ShopifyCatalogIndexer.init. by rewrite rstrip_app_all. }
  split; [apply rstrip_end_not|]. split; [done|]. split; [done|].
  split; [|done]. intros limit page. by rewrite Heq.
Qed.

Lemma strip_pad l s r :
  all_chars Py.isspace l = true → all_chars Py.isspace r = true →
  Py.strip (l +:+ s +:+ r) = Py.strip s.
Proof.
  intros Hl Hr. apply trimmed_strip.
  destruct (strip_trimmed s) as (l' & r' & Hs & Hl' & Hr' & Hh & He).
  exists (l +:+ l'), (r' +:+ r). rewrite !all_chars_app.
  rewrite Hl, Hr. apply Is_true_true in Hl', Hr'. rewrite Hl', Hr'.
  repeat split; try done. rewrite Hs at 1. by rewrite !app_assoc'.
Qed.

Lemma index_sku_key_pad l s r :
  all_chars Py.isspace l = true → all_chars Py.isspace r = true →
  index_sku_key (l +:+ s +:+ r) = index_sku_key s.
Proof. intros Hl Hr. by rewrite !index_sku_key_unfold, strip_pad. Qed.

Lemma index_sku_key_lower s : index_sku_key (Py.lower s) = index_sku_key s.
Proof. by rewrite !index_sku_key_unfold, strip_lower, lower_idem. Qed.

(** X2.  A lookup does not depend on the case of the query nor on white
    space around it: the padded query and the lower-cased query find what
    the query itself finds, on any indexer. *)
Theorem lookup_sku_ignores_case_and_padding (self : indexer) (l s r : string) :
  all_chars Py.isspace l = true →
  all_chars Py.isspace r = true →
  ShopifyCatalogIndexer.lookup_sku self (l +:+ s +:+ r)
    = ShopifyCatalogIndexer.lookup_sku self s
  ∧ ShopifyCatalogIndexer.lookup_sku self (Py.lower s)
    = ShopifyCatalogIndexer.lookup_sku self s
  ∧ index_sku_key (l +:+ s +:+ r) = index_sku_key s
  ∧ index_sku_key (Py.lower s) = index_sku_key s.
Proof.
  intros Hl Hr. unfold ShopifyCatalogIndexer.lookup_sku.
  change lookup_sku_key with index_sku_key.
  by rewrite index_sku_key_pad, index_sku_key_lower.
Qed.

Lemma lookup_sku_ignores_case_and_padding_witness :
  ShopifyCatalogIndexer.lookup_sku (ShopifyCatalogIndexer.init scenario_url) "  ABC-1 "
  = ShopifyCatalogIndexer.lookup_sku (ShopifyCatalogIndexer.init scenario_url) "ABC-1"
  ∧ index_sku_key "  ABC-1 " = index_sku_key "ABC-1".
Proof.
  destruct (lookup_sku_ignores_case_and_padding
              (ShopifyCatalogIndexer.init scenario_url) "  " "ABC-1" " ")
    as (H1 & _ & H2 & _); [reflexivity..|].
  split; [exact H1|exact H2].
Defined.

(** X3.  The key is empty exactly for a SKU made of white space only
    (the empty string included).  Such a SKU, when not empty, is truthy:
    the variant is not skipped but stored under the empty key. *)
Theorem blank_sku_has_empty_key (s : string) :
  (index_sku_key s = "" ↔ all_chars Py.isspace s = true)
  ∧ ∀ self p main_image v,
      PyJson.get v "sku" = JStr s → s ≠ "" → all_chars Py.isspace s = true →
      variant_entry self p main_image (JDict v)
      = Some ("", ShopifyCatalogIndexer.make_variant_data self p main_image v).
Proof.
  assert (index_sku_key s = "" ↔ all_chars Py.isspace s = true) as Hiff.
  { split.
    - rewrite index_sku_key_unfold. intros Hk.
      assert (Py.strip s = "") as Hs.
      { apply lower_eq_nil. by case_decide. }
      destruct (strip_trimmed s) as (l & r & Heq & Hl & Hr & _).
      rewrite Hs, app_nil_l' in Heq. rewrite Heq, all_chars_app.
      apply Is_true_true in Hl, Hr. by rewrite Hl, Hr.
    - intros Hs. by rewrite index_sku_key_unfold, strip_all_space. }
  split; [done|]. intros self p main_image v Hsku Hne Hs.
  unfold variant_entry. rewrite Hsku. simpl.
  destruct s; [done|]. simpl. do 2 f_equal. apply Hiff, Hs.
Qed.

(** X4.  Shape of a key: it is in lower case, does not end with white
    space, and begins with a zero only when it consists of zeros. *)
Theorem index_sku_key_shape (s : string) :
  Py.lower (index_sku_key s) = index_sku_key s
  ∧ end_not Py.isspace (index_sku_key s)
  ∧ (first_char (index_sku_key s) = Some "0"%char →
     all_chars (Py.is_char "0") (index_sku_key s) = true).
Proof.
  split; [|split].
  - rewrite index_sku_key_unfold. case_decide; [apply lower_idem|].
    apply lower_lstrip_fixed, lower_idem.
  - rewrite index_sku_key_unfold. case_decide; [apply lower_strip_end_not|].
    apply end_not_lstrip; [apply lower_strip_end_not|done].
  - rewrite index_sku_key_unfold. case_decide as Hk.
    + intros _.
      destruct (lstrip_split (Py.is_char "0") (Py.lower (Py.strip s))) as (z & Ht & Hz).
      rewrite Hk, app_nil_r' in Ht. by rewrite Ht.
    + intros Hc. by apply (lstrip_head_not (Py.is_char "0")) in Hc.
Qed.

(** ** [fetch_catalog] on any feed and any indexer *)

Lemma fetch_catalog_spec_any client self limit delay pages fuel :
  serves client self limit pages →
  (∀ ps, classify (client (nth_url self limit (length pages))) ≠ PageGood ps) →
  length pages < fuel →
  ShopifyCatalogIndexer.fetch_catalog fuel client self limit delay =
    Some (set_indexed
            (set_catalog self
               (insert_all (catalog self)
                  (feed_entries self pages
                     ++ page_entries self (client (nth_url self limit (length pages))))))
            true,
          match pages with
          | [] => 0
          | _ => size (insert_all (catalog self) (feed_entries self pages))
          end,
          loop_events self limit delay 0 (length pages)).
Proof.
  intros Hserves Hlast Hfuel. unfold ShopifyCatalogIndexer.fetch_catalog.
  change 1%Z with (Z.of_nat 1).
  by rewrite (fetch_loop_spec client limit delay pages self 0 0 [] fuel).
Qed.

Lemma good_pages_length client self limit i n :
  length (good_pages client self limit i n) ≤ n.
Proof.
  revert i. induction n as [|n IH]; intros i; simpl; [done|].
  destruct (classify _); simpl; [|lia..]. specialize (IH (S i)). lia.
Qed.

Lemma good_pages_lookup client self limit i n j ps :
  good_pages client self limit i n !! j = Some ps →
  classify (client (nth_url self limit (i + j))) = PageGood ps.
Proof.
  revert i j. induction n as [|n IH]; intros i j; simpl; [done|].
  destruct (classify (client (nth_url self limit i))) eqn:Hc; try done.
  destruct j as [|j]; simpl.
  - intros [= <-]. by rewrite Nat.add_0_r.
  - intros Hj. replace (i + S j) with (S i + j) by lia. by apply IH.
Qed.

Lemma good_pages_stop client self limit i n ps :
  length (good_pages client self limit i n) < n →
  classify (client (nth_url self limit (i + length (good_pages client self limit i n))))
  ≠ PageGood ps.
Proof.
  revert i. induction n as [|n IH]; intros i; simpl; [lia|].
  destruct (classify (client (nth_url self limit i))) eqn:Hc; simpl.
  - intros Hlt. replace (i + S (length (good_pages client self limit (S i) n)))
      with (S i + length (good_pages client self limit (S i) n)) by lia.
    apply IH. lia.
  - intros _. by rewrite Nat.add_0_r, Hc.
  - intros _. by rewrite Nat.add_0_r, Hc.
Qed.

Lemma good_pages_all client self limit i n :
  (∀ j, j < n → ∃ ps, classify (client (nth_url self limit (i + j))) = PageGood ps) →
  length (good_pages client self limit i n) = n.
Proof.
  revert i. induction n as [|n IH]; intros i Hall; simpl; [done|].
  destruct (Hall 0) as [ps Hps]; [lia|]. rewrite Nat.add_0_r in Hps. rewrite Hps.
  simpl. f_equal. apply IH. intros j Hj.
  replace (S i + j) with (i + S j) by lia. apply Hall. lia.
Qed.

Lemma good_pages_set_catalog client self c limit i n :
  good_pages client (set_catalog self c) limit i n = good_pages client self limit i n.
Proof.
  revert i. induction n as [|n IH]; intros i; simpl; [done|].
  rewrite nth_url_set_catalog. by rewrite IH.
Qed.

(** While the pages are good the loop goes on. *)
Lemma fetch_loop_running client limit delay fuel :
  ∀ self i total tr,
    length (good_pages client self limit i fuel) = fuel →
    ShopifyCatalogIndexer.fetch_loop fuel client limit delay self (Z.of_nat (S i)) total tr
    = None.
Proof.
  induction fuel as [|fuel IH]; intros self i total tr; [done|].
  simpl good_pages. simpl ShopifyCatalogIndexer.fetch_loop. fold (nth_url self limit i).
  destruct (fetch_page_spec client (nth_url self limit i) self) as (r & -> & Hr).
  destruct (classify (client (nth_url self limit i))) eqn:Hc; simpl; [|done..].
  destruct Hr as [-> _]. intros [= Hlen].
  replace (Z.of_nat (S i) + 1)%Z with (Z.of_nat (S (S i))) by lia.
  apply IH. by rewrite good_pages_set_catalog.
Qed.

(** Every run that returns is a run over good pages closed by a page
    that is not good. *)
Lemma fetch_catalog_inv client self limit delay fuel self' total trace :
  ShopifyCatalogIndexer.fetch_catalog fuel client self limit delay
    = Some (self', total, trace) →
  ∃ pages,
    serves client self limit pages
    ∧ (∀ ps, classify (client (nth_url self limit (length pages))) ≠ PageGood ps)
    ∧ length pages < fuel
    ∧ self' = set_indexed
                (set_catalog self
                   (insert_all (catalog self)
                      (feed_entries self pages
                         ++ page_entries self
                              (client (nth_url self limit (length pages))))))
                true
    ∧ total = match pages with
              | [] => 0
              | _ => size (insert_all (catalog self) (feed_entries self pages))
              end
    ∧ trace = loop_events self limit delay 0 (length pages).
Proof.
  intros Hrun. set (pages := good_pages client self limit 0 fuel).
  pose proof (good_pages_length client self limit 0 fuel) as Hle. fold pages in Hle.
  destruct (decide (length pages = fuel)) as [Heq|Hne].
  - unfold ShopifyCatalogIndexer.fetch_catalog in Hrun.
    change 1%Z with (Z.of_nat 1) in Hrun.
    by rewrite fetch_loop_running in Hrun.
  - assert (serves client self limit pages) as Hserves.
    { intros j ps Hj. by apply (good_pages_lookup client self limit 0 fuel j ps). }
    assert (∀ ps, classify (client (nth_url self limit (length pages))) ≠ PageGood ps)
      as Hlast.
    { intros ps. apply (good_pages_stop client self limit 0 fuel ps). fold pages. lia. }
    rewrite (fetch_catalog_spec_any client self limit delay pages fuel) in Hrun;
      [|done|done|lia].
    exists pages. simplify_eq. repeat split; try done. lia.
Qed.

(** X5.  [fetch_catalog] is still running after [fuel] iterations exactly
    when the first [fuel] pages are all non-empty pages of well-formed
    products: the loop ends at the first page that is empty or fails, and
    never ends against a feed that keeps serving products. *)
Theorem fetch_catalog_runs_while_pages_are_good (client : http_client)
    (self : indexer) (limit delay : Z) (fuel : nat) :
  ShopifyCatalogIndexer.fetch_catalog fuel client self limit delay = None
  ↔ ∀ i, i < fuel → ∃ ps, classify (client (nth_url self limit i)) = PageGood ps.
Proof.
  split.
  - intros Hrun i Hi.
    pose proof (good_pages_length client self limit 0 fuel) as Hle.
    destruct (decide (length (good_pages client self limit 0 fuel) = fuel)) as [Heq|Hne].
    + destruct (lookup_lt_is_Some_2 (good_pages client self limit 0 fuel) i) as [ps Hps];
        [lia|]. exists ps. by apply (good_pages_lookup client self limit 0 fuel i ps).
    + rewrite (fetch_catalog_spec_any client self limit delay
                 (good_pages client self limit 0 fuel) fuel) in Hrun; [done| | |lia].
      * intros j ps Hj. by apply (good_pages_lookup client self limit 0 fuel j ps).
      * intros ps. apply (good_pages_stop client self limit 0 fuel ps). lia.
  - intros Hall. unfold ShopifyCatalogIndexer.fetch_catalog.
    change 1%Z with (Z.of_nat 1). rewrite fetch_loop_running; [done|].
    by apply good_pages_all.
Qed.

Lemma insert_all_dom c (l : list entry) :
  dom (insert_all c l) = dom c ∪ list_to_set l.*1.
Proof.
  revert c. induction l as [|[k r] l IH]; intros c.
  - simpl. set_solver.
  - change (dom (insert_all (<[k := r]> c) l) = dom c ∪ list_to_set ((k, r) :: l).*1).
    rewrite IH, dom_insert_L, fmap_cons, list_to_set_cons. simpl. set_solver.
Qed.

Lemma insert_all_size_mono c (l : list entry) : size c ≤ size (insert_all c l).
Proof.
  rewrite <- !size_dom, insert_all_dom. apply subseteq_size. set_solver.
Qed.

Lemma insert_all_keeps_keys c (l : list entry) key :
  is_Some (c !! key) → is_Some (insert_all c l !! key).
Proof. rewrite <- !elem_of_dom, insert_all_dom. set_solver. Qed.

Lemma sleeps_loop_events self limit delay i k :
  sleeps (loop_events self limit delay i k) = replicate k delay.
Proof.
  revert i. induction k as [|k IH]; intros i; [done|].
  change (delay :: sleeps (loop_events self limit delay (S i) k)
          = delay :: replicate k delay).
  by rewrite IH.
Qed.

Lemma last_loop_events self limit delay i k :
  last (loop_events self limit delay i k) = Some (EvGet (nth_url self limit (i + k))).
Proof.
  revert i. induction k as [|k IH]; intros i.
  - simpl. by rewrite Nat.add_0_r.
  - cbn [loop_events]. destruct (loop_events self limit delay (S i) k) eqn:Hl.
    + specialize (IH (S i)). by rewrite Hl in IH.
    + rewrite !last_cons_cons, <- Hl, IH. do 3 f_equal. lia.
Qed.

Lemma nth_url_inj self limit : Inj (=) (=) (nth_url self limit).
Proof.
  intros i j. unfold nth_url, ShopifyCatalogIndexer.page_url.
  intros H. do 4 apply (inj (String.app _)) in H.
  apply (inj pretty) in H. lia.
Qed.

(** X6.  Whatever the feed and whatever the indexer held before, a call
    of [fetch_catalog] that returns leaves the indexer marked as indexed,
    keeps its URLs, keeps every key the catalog had (the catalog is never
    reset), and returns a count that is at most the size of the catalog:
    either 0 or a size the catalog had after a good page. *)
Theorem fetch_catalog_postconditions (client : http_client) (self : indexer)
    (limit delay : Z) (fuel : nat) (self' : indexer) (total : nat)
    (trace : list event) :
  ShopifyCatalogIndexer.fetch_catalog fuel client self limit delay
    = Some (self', total, trace) →
  indexed self' = true
  ∧ base_url self' = base_url self
  ∧ products_url self' = products_url self
  ∧ (∀ key, is_Some (catalog self !! key) → is_Some (catalog self' !! key))
  ∧ size (catalog self) ≤ size (catalog self')
  ∧ (total = 0 ∨ size (catalog self) ≤ total)
  ∧ total ≤ size (catalog self').
Proof.
  intros (pages & _ & _ & _ & -> & -> & _)%fetch_catalog_inv. simpl.
  split; [done|]. split; [done|]. split; [done|].
  split; [intros key; apply insert_all_keeps_keys|].
  split; [apply insert_all_size_mono|]. split.
  - destruct pages; [by left|right]. apply insert_all_size_mono.
  - destruct pages; [lia|]. rewrite <- insert_all_app. apply insert_all_size_mono.
Qed.

Lemma fetch_catalog_postconditions_witness :
  ∃ self' total trace,
    ShopifyCatalogIndexer.fetch_catalog 3 scenario_client
      (ShopifyCatalogIndexer.init scenario_url) 250 100 = Some (self', total, trace)
    ∧ indexed self' = true
    ∧ total ≤ size (catalog self').
Proof.
  destruct (ShopifyCatalogIndexer.fetch_catalog 3 scenario_client
              (ShopifyCatalogIndexer.init scenario_url) 250 100)
    as [[[self' total] trace]|] eqn:Hrun; [|vm_compute in Hrun; discriminate].
  exists self', total, trace. split; [reflexivity|].
  destruct (fetch_catalog_postconditions _ _ _ _ _ _ _ _ Hrun)
    as (Hi & _ & _ & _ & _ & _ & Ht).
  split; [exact Hi|exact Ht].
Defined.

(** X7.  The requests of a run that returns: pages are requested in
    order from page 1 with no gap and no repetition, each request but
    the last is followed by one sleep of [delay_ms], and nothing follows
    the request of the page that ended the loop. *)
Theorem fetch_catalog_requests_and_pacing (client : http_client) (self : indexer)
    (limit delay : Z) (fuel : nat) (self' : indexer) (total : nat)
    (trace : list event) :
  ShopifyCatalogIndexer.fetch_catalog fuel client self limit delay
    = Some (self', total, trace) →
  ∃ k, k < fuel
    ∧ trace = loop_events self limit delay 0 k
    ∧ get_urls trace = nth_url self limit <$> seq 0 (S k)
    ∧ NoDup (get_urls trace)
    ∧ sleeps trace = replicate k delay
    ∧ last trace = Some (EvGet (nth_url self limit k)).
Proof.
  intros (pages & _ & _ & Hlt & _ & _ & ->)%fetch_catalog_inv.
  exists (length pages). split; [done|]. split; [done|].
  rewrite get_urls_loop_events. split; [done|]. split.
  - apply NoDup_fmap_2; [apply nth_url_inj|apply NoDup_seq].
  - split; [apply sleeps_loop_events|]. by rewrite last_loop_events.
Qed.

Lemma fetch_catalog_requests_and_pacing_witness :
  ∃ self' total trace,
    ShopifyCatalogIndexer.fetch_catalog 3 scenario_client
      (ShopifyCatalogIndexer.init scenario_url) 250 100 = Some (self', total, trace)
    ∧ NoDup (get_urls trace).
Proof.
  destruct (ShopifyCatalogIndexer.fetch_catalog 3 scenario_client
              (ShopifyCatalogIndexer.init scenario_url) 250 100)
    as [[[self' total] trace]|] eqn:Hrun; [|vm_compute in Hrun; discriminate].
  exists self', total, trace. split; [reflexivity|].
  destruct (fetch_catalog_requests_and_pacing _ _ _ _ _ _ _ _ Hrun)
    as (k & _ & _ & _ & Hnd & _).
  exact Hnd.
Defined.

Lemma unavailable_page_records_nothing self (o : http_outcome) :
  classify o = PageEmpty
  ∨ o = GetRaises
  ∨ (∃ status body, o = Response status body ∧ status ≠ 200%Z) →
  (∀ ps, classify o ≠ PageGood ps) ∧ page_entries self o = [].
Proof.
  intros [Hc|[->|(status & body & -> & Hne)]].
  - split; [by rewrite Hc|].
    destruct (fetch_page_spec (λ _, o) "" self) as (r & _ & Hr).
    rewrite Hc in Hr. by destruct Hr.
  - done.
  - unfold classify, page_entries.
    destruct body as [[| | | | |d]|]; try done.
    by rewrite (proj2 (Z.eqb_neq status 200) Hne).
Qed.

(** X8.  The count is not the size of the catalog: on any indexer,
    already filled or not, a first page that is empty, refused or not
    delivered makes [fetch_catalog] return 0 after that single request
    and leave the catalog exactly as it was, with the indexer marked as
    indexed. *)
Theorem fetch_catalog_first_page_unavailable (client : http_client) (self : indexer)
    (limit delay : Z) (fuel : nat) :
  let first := client (nth_url self limit 0) in
  classify first = PageEmpty
  ∨ first = GetRaises
  ∨ (∃ status body, first = Response status body ∧ status ≠ 200%Z) →
  ShopifyCatalogIndexer.fetch_catalog (S fuel) client self limit delay
  = Some (set_indexed self true, 0, [EvGet (nth_url self limit 0)]).
Proof.
  intros first Hfirst.
  destruct (unavailable_page_records_nothing self first Hfirst) as [Hng Hpe].
  rewrite (fetch_catalog_spec_any client self limit delay [] (S fuel));
    [|by intros i ps|done|simpl; lia].
  simpl. fold first. rewrite Hpe. simpl. by rewrite set_catalog_id.
Qed.

(** The indexer the scenario leaves behind, asked again while the site
    answers 429. *)
Lemma fetch_catalog_first_page_unavailable_witness :
  ∃ self,
    ShopifyCatalogIndexer.fetch_catalog 3 scenario_client
      (ShopifyCatalogIndexer.init scenario_url) 250 100
    = Some (self, 2, loop_events (ShopifyCatalogIndexer.init scenario_url) 250 100 0 2)
    ∧ ShopifyCatalogIndexer.fetch_catalog 1 (λ _, Response 429 None) self 250 100
      = Some (set_indexed self true, 0, [EvGet (nth_url self 250 0)]).
Proof.
  eexists. split; [by vm_compute|].
  apply (fetch_catalog_first_page_unavailable (λ _, Response 429 None)).
  right. right. by exists 429%Z, None.
Defined.

Lemma size_list_to_set_le (l : list string) :
  size (list_to_set l : gset string) ≤ length l.
Proof.
  induction l as [|x l IH]; [done|]. rewrite list_to_set_cons. simpl.
  destruct (decide (x ∈ l)) as [Hin|Hnotin].
  - replace ({[x]} ∪ list_to_set l : gset string) with (list_to_set l : gset string)
      by set_solver. lia.
  - rewrite size_union, size_singleton by set_solver. lia.
Qed.

Lemma size_list_to_set_eq_iff (l : list string) :
  size (list_to_set l : gset string) = length l ↔ NoDup l.
Proof.
  split; [|apply size_list_to_set].
  induction l as [|x l IH]; [constructor|]. rewrite list_to_set_cons. simpl.
  pose proof (size_list_to_set_le l) as Hle.
  destruct (decide (x ∈ l)) as [Hin|Hnotin].
  - replace ({[x]} ∪ list_to_set l : gset string) with (list_to_set l : gset string)
      by set_solver. lia.
  - rewrite size_union, size_singleton by set_solver. intros Hsz.
    apply NoDup_cons. split; [done|]. apply IH. lia.
Qed.

(** X9.  The count returned for a feed of good pages is the number of
    distinct keys among their SKU-carrying variants, not the number of
    variants: it is at most that number and equals it exactly when no two
    of them share a key. *)
Theorem fetch_catalog_counts_distinct_keys (client : http_client) (url : string)
    (limit delay : Z) (pages : list (list json)) (fuel : nat) :
  let self := ShopifyCatalogIndexer.init url in
  serves client self limit pages →
  (∀ ps, classify (client (nth_url self limit (length pages))) ≠ PageGood ps) →
  length pages < fuel →
  ∃ self' total trace,
    ShopifyCatalogIndexer.fetch_catalog fuel client self limit delay
      = Some (self', total, trace)
    ∧ total = size (list_to_set (feed_entries self pages).*1 : gset string)
    ∧ total ≤ length (feed_entries self pages)
    ∧ (total = length (feed_entries self pages) ↔ NoDup (feed_entries self pages).*1).
Proof.
  intros self Hserves Hlast Hfuel.
  pose proof (fetch_catalog_spec client url limit delay pages fuel Hserves Hlast Hfuel)
    as Hrun.
  fold self in Hrun. eexists _, _, _. split; [exact Hrun|].
  assert (size (insert_all ∅ (feed_entries self pages))
          = size (list_to_set (feed_entries self pages).*1 : gset string)) as ->.
  { rewrite <- size_dom, insert_all_dom, dom_empty_L. f_equal. set_solver. }
  split; [done|].
  assert (length (feed_entries self pages).*1 = length (feed_entries self pages)) as <-
    by apply length_fmap.
  split; [apply size_list_to_set_le|apply size_list_to_set_eq_iff].
Qed.

(** Two variants, one key: the count is 1. *)
Lemma fetch_catalog_counts_distinct_keys_witness :
  ∃ self' total trace,
    ShopifyCatalogIndexer.fetch_catalog 2 collision_client
      (ShopifyCatalogIndexer.init scenario_url) 250 100 = Some (self', total, trace)
    ∧ total = 1
    ∧ length (feed_entries (ShopifyCatalogIndexer.init scenario_url) [collision_products]) = 2.
Proof.
  destruct (fetch_catalog_counts_distinct_keys collision_client scenario_url 250 100
              [collision_products] 2 collision_serves)
    as (self' & total & trace & Hrun & Htotal & _).
  - intros ps. by vm_compute.
  - simpl. lia.
  - exists self', total, trace. split; [exact Hrun|].
    split; [rewrite Htotal; by vm_compute|by vm_compute].
Defined.

(** ** [_index_product]: what it touches, and what a record is stored under *)

(** X10.  Indexing a product changes nothing but the catalog, and in the
    catalog only the keys of that product's own SKUs; it never removes a
    key; it raises exactly when the product is not well formed, and what
    it recorded before raising stays. *)
Theorem index_product_frame (self : indexer) (product : json) :
  let self' := (ShopifyCatalogIndexer._index_product self product).1 in
  base_url self' = base_url self
  ∧ products_url self' = products_url self
  ∧ indexed self' = indexed self
  ∧ catalog self' = insert_all (catalog self) (product_entries self product)
  ∧ (∀ key, key ∉ (product_entries self product).*1 →
       catalog self' !! key = catalog self !! key)
  ∧ (∀ key, is_Some (catalog self !! key) → is_Some (catalog self' !! key))
  ∧ is_ok (ShopifyCatalogIndexer._index_product self product).2 = product_ok product.
Proof.
  destruct (index_product_spec self product) as (r & -> & Hr). simpl.
  split; [done|]. split; [done|]. split; [done|]. split; [done|].
  split; [intros key; apply insert_all_lookup_notin|].
  split; [intros key; apply insert_all_keeps_keys|done].
Qed.

Lemma variant_entry_keyed self p main_image variant e :
  variant_entry self p main_image variant = Some e →
  PyJson.truthy (vd_sku e.2) = true ∧ e.1 = index_sku_key (PyJson.str (vd_sku e.2)).
Proof.
  destruct variant as [| | | | |v]; try done. simpl.
  destruct (PyJson.truthy (PyJson.get v "sku")) eqn:Hsku; [|done].
  by intros [= <-].
Qed.

Lemma product_entries_keyed self product e :
  e ∈ product_entries self product →
  PyJson.truthy (vd_sku e.2) = true ∧ e.1 = index_sku_key (PyJson.str (vd_sku e.2)).
Proof.
  unfold product_entries. destruct product as [| | | | |p]; try by intros ?%elem_of_nil.
  destruct (ShopifyCatalogIndexer.main_image_of _); [|by intros ?%elem_of_nil].
  destruct (PyJson.iter _); [|by intros ?%elem_of_nil].
  intros (variant & _ & Hv)%list_elem_of_omap. by eapply variant_entry_keyed.
Qed.

Lemma products_entries_keyed self ps e :
  e ∈ products_entries self ps →
  PyJson.truthy (vd_sku e.2) = true ∧ e.1 = index_sku_key (PyJson.str (vd_sku e.2)).
Proof.
  induction ps as [|p ps IH]; simpl; [by intros ?%elem_of_nil|].
  intros [He|He]%elem_of_app; [by eapply product_entries_keyed|].
  destruct (product_ok p); [by apply IH|by apply elem_of_nil in He].
Qed.

Lemma page_entries_keyed self o e :
  e ∈ page_entries self o →
  PyJson.truthy (vd_sku e.2) = true ∧ e.1 = index_sku_key (PyJson.str (vd_sku e.2)).
Proof.
  unfold page_entries. repeat case_match; try by intros ?%elem_of_nil.
  apply products_entries_keyed.
Qed.

Lemma feed_entries_keyed self pages e :
  e ∈ feed_entries self pages →
  PyJson.truthy (vd_sku e.2) = true ∧ e.1 = index_sku_key (PyJson.str (vd_sku e.2)).
Proof.
  unfold feed_entries. intros (ps & He & _)%list_elem_of_bind.
  by eapply products_entries_keyed.
Qed.

Lemma insert_all_keyed c (l : list entry) :
  keyed_by_sku c →
  (∀ e, e ∈ l →
     PyJson.truthy (vd_sku e.2) = true ∧ e.1 = index_sku_key (PyJson.str (vd_sku e.2))) →
  keyed_by_sku (insert_all c l).
Proof.
  intros Hc Hl key r [Hin|Hr]%insert_all_lookup_Some; [|by apply Hc].
  by apply (Hl (key, r)).
Qed.

(** X11.  Round trip between indexing and lookup.  If every record of the
    catalog is stored under the key of the SKU it displays (as in a new
    indexer), the same holds after [fetch_catalog], whatever the feed;
    every record is then found again by looking up the SKU it displays. *)
Theorem fetch_catalog_records_found_by_their_sku (client : http_client)
    (self : indexer) (limit delay : Z) (fuel : nat) (self' : indexer)
    (total : nat) (trace : list event) :
  keyed_by_sku (catalog self) →
  ShopifyCatalogIndexer.fetch_catalog fuel client self limit delay
    = Some (self', total, trace) →
  keyed_by_sku (catalog self')
  ∧ ∀ key r, catalog self' !! key = Some r →
      ShopifyCatalogIndexer.lookup_sku self' (PyJson.str (vd_sku r)) = Some r.
Proof.
  intros Hkeyed (pages & _ & _ & _ & -> & _ & _)%fetch_catalog_inv.
  assert (keyed_by_sku
            (insert_all (catalog self)
               (feed_entries self pages
                  ++ page_entries self (client (nth_url self limit (length pages))))))
    as Hkeyed'.
  { apply insert_all_keyed; [done|].
    intros e [He|He]%elem_of_app;
      [by eapply feed_entries_keyed|by eapply page_entries_keyed]. }
  split; [exact Hkeyed'|]. intros key r Hr.
  unfold ShopifyCatalogIndexer.lookup_sku. simpl in *.
  change lookup_sku_key with index_sku_key.
  destruct (Hkeyed' key r Hr) as [_ <-]. exact Hr.
Qed.

Lemma fetch_catalog_records_found_by_their_sku_witness :
  ∃ self' total trace,
    ShopifyCatalogIndexer.fetch_catalog 3 scenario_client
      (ShopifyCatalogIndexer.init scenario_url) 250 100 = Some (self', total, trace)
    ∧ keyed_by_sku (catalog self').
Proof.
  destruct (ShopifyCatalogIndexer.fetch_catalog 3 scenario_client
              (ShopifyCatalogIndexer.init scenario_url) 250 100)
    as [[[self' total] trace]|] eqn:Hrun; [|vm_compute in Hrun; discriminate].
  exists self', total, trace. split; [reflexivity|].
  refine (proj1 (fetch_catalog_records_found_by_their_sku _ _ _ _ _ _ _ _ _ Hrun)).
  intros key r Hr.
  change ((∅ : gmap string variant_data) !! key = Some r) in Hr.
  by rewrite lookup_empty in Hr.
Defined.

(** ** More on [_normalise_rows] *)

Lemma strip_strip s : Py.strip (Py.strip s) = Py.strip s.
Proof. apply strip_id; [apply strip_head_not|apply strip_end_not]. Qed.

Lemma field_Some r K k v : App.field r K k = Some v → v ≠ "" ∧ Py.strip v = v.
Proof.
  unfold App.field.
  destruct (Py.strip _) as [|c s] eqn:Hs; [done|]. simpl. intros [= <-].
  split; [done|]. rewrite <- Hs. apply strip_strip.
Qed.

Lemma item_of_row_ok r it : item_of_row r = Some it → item_ok it.
Proof.
  unfold item_of_row.
  destruct (App.field r "SKU" "sku") as [sku|] eqn:Hsku,
           (App.field r "URL" "url") as [url|] eqn:Hurl; simpl; intros [= <-];
    (split; simpl; [eauto|]); intros v [[= <-]|[= <-]]; by eapply field_Some.
Qed.

Lemma length_omap_le {A B} (f : A → option B) (l : list A) :
  length (omap f l) ≤ length l.
Proof. induction l as [|x l IH]; [done|]. cbn. destruct (f x); simpl; lia. Qed.

Lemma normalise_rows_items_are_well_formed_aux (rows : list row) :
  Forall item_ok (App._normalise_rows rows)
  ∧ NoDup (item_key <$> App._normalise_rows rows).
Proof.
  rewrite normalise_rows_first_occurrences. split; [|apply first_occurrences_NoDup].
  apply Forall_forall. intros it Hin.
  pose proof (first_occurrences_sublist (omap item_of_row rows)) as Hsub.
  apply (elem_of_sublist _ _ _ Hin) in Hsub.
  apply list_elem_of_omap in Hsub as (r & _ & Hr). by eapply item_of_row_ok.
Qed.

(** X12.  Every item [_normalise_rows] returns has a sku or a url, each
    populated field is a non-empty string with no white space around it,
    and there are never more items than rows. *)
Theorem normalise_rows_items_are_well_formed (rows : list row) :
  Forall item_ok (App._normalise_rows rows)
  ∧ length (App._normalise_rows rows) ≤ length rows.
Proof.
  rewrite normalise_rows_first_occurrences.
  pose proof (first_occurrences_sublist (omap item_of_row rows)) as Hsub.
  split.
  - apply Forall_forall. intros it Hin.
    apply (elem_of_sublist _ _ _ Hin) in Hsub.
    apply list_elem_of_omap in Hsub as (r & _ & Hr). by eapply item_of_row_ok.
  - apply sublist_length in Hsub. pose proof (length_omap_le item_of_row rows). lia.
Qed.

Lemma get_of_item_row (it : item) :
  App.get (row_of_item it) "SKU" = None
  ∧ App.get (row_of_item it) "sku" = it_sku it
  ∧ App.get (row_of_item it) "URL" = None
  ∧ App.get (row_of_item it) "url" = it_url it.
Proof. unfold App.get, row_of_item. repeat split; by simplify_map_eq. Qed.

Lemma field_of_item_row (it : item) :
  item_ok it →
  App.field (row_of_item it) "SKU" "sku" = it_sku it
  ∧ App.field (row_of_item it) "URL" "url" = it_url it.
Proof.
  intros [_ Hv]. unfold App.field.
  destruct (get_of_item_row it) as (-> & -> & -> & ->).
  assert (∀ o : option string,
            (∀ v, o = Some v → v ≠ "" ∧ Py.strip v = v) →
            (let s := Py.strip (default "" (App.or_ (App.or_ None o) (Some ""))) in
             if Py.str_truthy s then Some s else None) = o) as Hfield.
  { intros [v|] Ho; [|done]. destruct (Ho v eq_refl) as [Hne Hs].
    destruct v as [|c v]; [done|]. simpl. simpl in Hs. rewrite Hs. done. }
  split; apply Hfield; intros v Hv'; apply Hv; eauto.
Qed.

Lemma item_of_item_row (it : item) : item_ok it → item_of_row (row_of_item it) = Some it.
Proof.
  intros Hok. unfold item_of_row.
  destruct (field_of_item_row it Hok) as [-> ->].
  destruct Hok as [[[sku Hsku]|[url Hurl]] _]; destruct it as [s u]; simpl in *;
    subst; simpl; [done|]. by destruct s.
Qed.

Lemma filter_other_keys_id x (l : list item) :
  item_key x ∉ item_key <$> l → filter (λ y, item_key y ≠ item_key x) l = l.
Proof.
  induction l as [|y l IH]; [done|].
  rewrite fmap_cons, not_elem_of_cons. intros [Hne Hx].
  rewrite filter_cons, decide_True by congruence. by rewrite IH.
Qed.

Lemma first_occurrences_NoDup_id l :
  NoDup (item_key <$> l) → first_occurrences l = l.
Proof.
  induction l as [|x l IH]; [done|]. rewrite fmap_cons, NoDup_cons.
  intros [Hx Hl]. cbn [first_occurrences]. by rewrite IH, filter_other_keys_id.
Qed.

Lemma items_of_item_rows (l : list item) :
  Forall item_ok l → omap item_of_row (row_of_item <$> l) = l.
Proof.
  induction 1 as [|it l Hit _ IH]; [done|].
  rewrite fmap_cons. cbn [omap list_omap]. by rewrite item_of_item_row, IH.
Qed.

(** X13.  Normalising is idempotent on its own output: the dicts
    [_normalise_rows] returns, given back to it, come out unchanged. *)
Theorem normalise_rows_idempotent (rows : list row) :
  App._normalise_rows (row_of_item <$> App._normalise_rows rows)
  = App._normalise_rows rows.
Proof.
  destruct (normalise_rows_items_are_well_formed_aux rows) as [Hok Hnd].
  rewrite (normalise_rows_first_occurrences (row_of_item <$> _)).
  rewrite items_of_item_rows by done. by apply first_occurrences_NoDup_id.
Qed.

(** X14.  The upper-case field name wins: when a row holds a non-empty
    string under ["SKU"], what it holds under ["sku"] is never read; the
    item's sku is the trimmed ["SKU"] value, or none when that value is
    white space only.  The lower-case name is read only when the
    upper-case one is missing, [None] or empty. *)
Theorem normalise_field_prefers_upper_case (r : row) (K k : string) :
  (∀ s, App.get r K = Some s → s ≠ "" →
     App.field r K k = if Py.str_truthy (Py.strip s) then Some (Py.strip s) else None)
  ∧ (App.get r K = None ∨ App.get r K = Some "" →
     ∀ r', App.get r' K = None → App.get r' k = App.get r k →
           App.field r K k = App.field r' K k).
Proof.
  unfold App.field, App.or_. split.
  - intros s -> Hne. by destruct s.
  - intros [->| ->] r' -> ->; done.
Qed.

Example blank_upper_case_sku_hides_lower_case :
  App._normalise_rows [ {[ "SKU" := Some "  "; "sku" := Some "A1" ]} ] = [].
Proof. by vm_compute. Qed.

(** ** The catalog export and the indexer handed to the scraper *)


Example scenario_export :
  (λ r, AppMain.txt_content r.1.1) <$>
    ShopifyCatalogIndexer.fetch_catalog 3 scenario_client
      (ShopifyCatalogIndexer.init scenario_url) 250 100
  = Some ("73302" +:+ String "010" "abc-1").
Proof. by vm_compute. Qed.

(** X16.  The scraper is handed an indexer only when the platform is
    Shopify, an origin was given and the downloaded catalog is not empty;
    that indexer is marked as indexed, so its lookups read the catalog. *)
Theorem prepare_indexer_gives_usable_indexer (fuel : nat) (client : http_client)
    (cms_choice origin : string) (idx : indexer) (trace : list event) :
  AppMain.prepare_indexer fuel client cms_choice origin = Some (Some idx, trace) →
  cms_choice = "Shopify"
  ∧ origin ≠ ""
  ∧ indexed idx = true
  ∧ catalog idx ≠ ∅
  ∧ base_url idx = Py.rstrip (Py.is_char "/") origin
  ∧ ∀ s, ShopifyCatalogIndexer.lookup_sku idx s = catalog idx !! index_sku_key s.
Proof.
  unfold AppMain.prepare_indexer, AppMain.get_cached_indexer.
  destruct (String.eqb_spec cms_choice "Shopify") as [->|]; [|done].
  destruct origin as [|c origin]; [done|]. simpl andb. cbv iota.
  destruct (ShopifyCatalogIndexer.fetch_catalog _ _ _ _ _)
    as [[[idx' total] trace']|] eqn:Hrun; [|done].
  destruct (_ =? 0)%nat eqn:Hsz; [done|]. apply Nat.eqb_neq in Hsz.
  intros [= -> ->].
  destruct (fetch_catalog_inv _ _ _ _ _ _ _ _ Hrun) as (pages & _ & _ & _ & Hidx & _).
  assert (indexed idx = true ∧
          base_url idx = Py.rstrip (Py.is_char "/") (String c origin)) as [Hi Hb]
    by (by rewrite Hidx).
  split; [done|]. split; [done|]. split; [done|].
  split; [intros Hempty; by rewrite Hempty, map_size_empty in Hsz|]. split; [done|].
  intros s. unfold ShopifyCatalogIndexer.lookup_sku. by rewrite Hi.
Qed.

Lemma prepare_indexer_gives_usable_indexer_witness :
  ∃ idx trace,
    AppMain.prepare_indexer 3 scenario_client "Shopify" scenario_url = Some (Some idx, trace)
    ∧ indexed idx = true.
Proof.
  destruct (AppMain.prepare_indexer 3 scenario_client "Shopify" scenario_url)
    as [[[idx|] trace]|] eqn:Hrun; [|vm_compute in Hrun; discriminate..].
  exists idx, trace. split; [reflexivity|].
  exact (proj1 (proj2 (proj2 (prepare_indexer_gives_usable_indexer _ _ _ _ _ _ Hrun)))).
Defined.

(** X17.  Fallback: for Shopify with an origin, when the first catalog
    page is empty, refused (a status other than 200, as for 429) or not
    delivered, no indexer is handed to the scraper, after that single
    request; for another platform or without origin no request is made. *)
Theorem prepare_indexer_falls_back (fuel : nat) (client : http_client)
    (cms_choice origin : string) :
  (cms_choice = "Shopify" → origin ≠ "" →
   let self := ShopifyCatalogIndexer.init origin in
   let first := client (nth_url self 250 0) in
   classify first = PageEmpty
   ∨ first = GetRaises
   ∨ (∃ status body, first = Response status body ∧ status ≠ 200%Z) →
   AppMain.prepare_indexer (S fuel) client cms_choice origin
   = Some (None, [EvGet (nth_url self 250 0)]))
  ∧ (cms_choice ≠ "Shopify" ∨ origin = "" →
     AppMain.prepare_indexer fuel client cms_choice origin = Some (None, [])).
Proof.
  split.
  - intros -> Hne self first Hfirst.
    unfold AppMain.prepare_indexer, AppMain.get_cached_indexer.
    destruct origin as [|c origin]; [done|].
    simpl andb. cbv iota. fold self.
    destruct (unavailable_page_records_nothing self first Hfirst) as [Hng Hpe].
    rewrite (fetch_catalog_spec_any client self 250 100 [] (S fuel));
      [|by intros i ps|done|simpl; lia].
    simpl. fold first. by rewrite Hpe.
  - unfold AppMain.prepare_indexer. intros [Hne| ->].
    + by rewrite (proj2 (String.eqb_neq _ _) Hne).
    + by rewrite andb_false_r.
Qed.

(** ** Gathering the input of a scrape *)

Lemma splitlines_after_break c s' :
  match c, s' with
  | "013"%char, String "010"%char s'' => splitlines s''
  | _, _ => splitlines s'
  end = splitlines s'
  ∨ ∃ s'', s' = String "010" s''
         ∧ match c, s' with
           | "013"%char, String "010"%char s'' => splitlines s''
           | _, _ => splitlines s'
           end = splitlines s''.
Proof.
  destruct c as [[] [] [] [] [] [] [] []]; try (by left).
  destruct s' as [|c' s'']; [by left|].
  destruct c' as [[] [] [] [] [] [] [] []]; try (by left).
  right. by exists s''.
Qed.

Lemma splitlines_all_space n :
  ∀ s, String.length s ≤ n → all_chars Py.isspace s = true →
       Forall (λ l, all_chars Py.isspace l = true) (splitlines s).
Proof.
  induction n as [|n IH]; intros [|c s'] Hlen Hall; try (by constructor);
    simpl in Hlen; [lia|].
  simpl in Hall. apply andb_true_iff in Hall as [Hc Hs'].
  cbn [splitlines]. destruct (is_linebreak c).
  - constructor; [done|].
    destruct (splitlines_after_break c s') as [->|(s'' & -> & ->)].
    + apply IH; [lia|done].
    + simpl in Hs', Hlen. apply IH; [lia|done].
  - pose proof (IH s' ltac:(lia) Hs') as Hlines.
    destruct (splitlines s') as [|line lines].
    + constructor; [|done]. simpl. by rewrite Hc.
    + inv Hlines. constructor; [|done]. simpl. by rewrite Hc.
Qed.

Lemma manual_rows_eq field text :
  AppMain.manual_rows field text
  = (λ s, {[ field := Some (Py.strip s) ]}) <$>
      filter (λ s, Py.str_truthy (Py.strip s) = true) (splitlines text).
Proof.
  unfold AppMain.manual_rows.
  destruct (Py.strip text) as [|c t] eqn:Ht; [|done]. simpl.
  apply strip_nil_iff in Ht.
  pose proof (splitlines_all_space _ text (Nat.le_refl _) Ht) as Hlines.
  induction Hlines as [|l ls Hl _ IHl]; [done|].
  rewrite filter_cons, decide_False; [done|].
  by rewrite strip_all_space.
Qed.

Lemma item_of_sku_row t :
  Py.str_truthy (Py.strip t) = true →
  item_of_row {[ "sku" := Some (Py.strip t) ]}
  = Some {| it_sku := Some (Py.strip t); it_url := None |}.
Proof.
  intros Ht. unfold item_of_row, App.field, App.get, row.
  rewrite !lookup_singleton_ne by done. rewrite lookup_singleton_eq.
  pose proof (strip_strip t) as Hss.
  destruct (Py.strip t) as [|c s] eqn:Hs; [done|]. simpl. by rewrite Hss.
Qed.

Lemma item_of_url_row t :
  Py.str_truthy (Py.strip t) = true →
  item_of_row {[ "url" := Some (Py.strip t) ]}
  = Some {| it_sku := None; it_url := Some (Py.strip t) |}.
Proof.
  intros Ht. unfold item_of_row, App.field, App.get, row.
  rewrite !lookup_singleton_ne by done. rewrite lookup_singleton_eq.
  pose proof (strip_strip t) as Hss.
  destruct (Py.strip t) as [|c s] eqn:Hs; [done|]. simpl. by rewrite Hss.
Qed.

Lemma items_of_manual_rows field (mk : string → item) text :
  (∀ t, Py.str_truthy (Py.strip t) = true →
        item_of_row {[ field := Some (Py.strip t) ]} = Some (mk (Py.strip t))) →
  omap item_of_row (AppMain.manual_rows field text)
  = mk <$> (Py.strip <$>
              filter (λ s, Py.str_truthy (Py.strip s) = true) (splitlines text)).
Proof.
  intros Hmk. rewrite manual_rows_eq.
  induction (splitlines text) as [|l ls IH]; [done|].
  rewrite filter_cons. case_decide as Hl; [|done].
  rewrite !fmap_cons. cbn [omap list_omap]. by rewrite Hmk, IH.
Qed.

(** X18.  What a scrape starts from: the CSV records first, then one item
    per non-blank line of the SKU box, then one per non-blank line of the
    URL box (a SKU and a URL typed on the same line number are two
    items), each line trimmed; of these the first occurrence of each
    identity key is kept.  Without any item nothing is scraped, and a CSV
    that cannot be read stops the run. *)
Theorem gather_collects_in_order (csv_rows : list row) (sku_input url_input : string) :
  let lines text :=
    Py.strip <$> filter (λ s, Py.str_truthy (Py.strip s) = true) (splitlines text) in
  let candidates :=
    omap item_of_row csv_rows
      ++ ((λ s, {| it_sku := Some s; it_url := None |}) <$> lines sku_input)
      ++ ((λ u, {| it_sku := None; it_url := Some u |}) <$> lines url_input) in
  AppMain.gather (Some (Ok csv_rows)) sku_input url_input
  = match first_occurrences candidates with
    | [] => AppMain.NoItems
    | items => AppMain.Items items
    end
  ∧ AppMain.gather None sku_input url_input
    = AppMain.gather (Some (Ok [])) sku_input url_input
  ∧ (∀ e, AppMain.gather (Some (Raise e)) sku_input url_input = AppMain.CsvFailed)
  ∧ (∀ items, AppMain.gather (Some (Ok csv_rows)) sku_input url_input = AppMain.Items items →
       items ≠ [] ∧ Forall item_ok items).
Proof.
  intros lines candidates.
  assert (App._normalise_rows
            (csv_rows ++ AppMain.manual_rows "sku" sku_input
                      ++ AppMain.manual_rows "url" url_input)
          = first_occurrences candidates) as Hitems.
  { rewrite normalise_rows_first_occurrences, !omap_app.
    rewrite (items_of_manual_rows "sku" (λ s, {| it_sku := Some s; it_url := None |}))
      by apply item_of_sku_row.
    by rewrite (items_of_manual_rows "url" (λ u, {| it_sku := None; it_url := Some u |}))
      by apply item_of_url_row. }
  split; [|split; [done|split; [done|]]].
  - unfold AppMain.gather. rewrite Hitems. by destruct (first_occurrences candidates).
  - intros items. unfold AppMain.gather.
    pose proof (proj1 (normalise_rows_items_are_well_formed_aux
                         (csv_rows ++ AppMain.manual_rows "sku" sku_input
                                   ++ AppMain.manual_rows "url" url_input))) as Hok.
    destruct (App._normalise_rows _) as [|it its]; [done|]. by intros [= <-].
Qed.

Example splitlines_crlf :
  splitlines ("a" +:+ String "013" (String "010" ("b" +:+ String "010" (String "010" "c"))))
  = ["a"; "b"; ""; "c"].
Proof. by vm_compute. Qed.

Example gather_manual :
  AppMain.gather None (" A1 " +:+ String "010" ("a1" +:+ String "010" "  "))
                      "https://shop.example/p/a1"
  = AppMain.Items [ {| it_sku := Some "A1"; it_url := None |};
                    {| it_sku := None; it_url := Some "https://shop.example/p/a1" |} ].
Proof. by vm_compute. Qed.
